(** * content_agent_system.py: the content planning agent

    A shallow embedding of [src/content_agent_system.py]: the JSON-backed
    memory store, the offline tools, the skip guardrail and the run loop of
    [run_system], followed by the properties of the specification.

    Modelling conventions.
    - A Python [str] is a Rocq [string] holding one code point per
      character, which covers the strings with code points below 256.  On
      them [lower] and [strip] are Python's [str.lower] and [str.strip];
      [upper] is [str.upper] on ASCII strings, and the program applies it to
      the step identifiers only.
    - Python values that can sit in the memory file (what [json.load]
      returns) are the type [value]; dictionaries are [gmap string value].
    - Exceptions are an [outcome]; code with effects (the memory file, the
      console, the clock, the module-level [agent]) lives in the monad [M],
      a state monad over [world] in which a raised exception keeps the
      world reached so far.
    - [str()] of a non-string value and the readings of the clock are the
      parameters [py_repr] and [clock]. *)

From Stdlib Require Import Ascii.
From stdpp Require Import gmap strings list fin_maps.

Set Warnings "-register-all".
Local Open Scope string_scope.

(** ** Strings *)

Definition nl : string := String (ascii_of_nat 10) "".

Definition code (c : ascii) : N := N_of_ascii c.

(** [str.isspace] on one character. *)
Definition is_space (c : ascii) : bool :=
  let n := code c in
  ((9 <=? n) && (n <=? 13) || (28 <=? n) && (n <=? 32)
   || (n =? 133) || (n =? 160))%N.

Definition lower_char (c : ascii) : ascii :=
  let n := code c in
  if ((65 <=? n) && (n <=? 90) || (192 <=? n) && (n <=? 214)
      || (216 <=? n) && (n <=? 222))%N
  then ascii_of_N (n + 32) else c.

Definition upper_char (c : ascii) : ascii :=
  let n := code c in
  if ((97 <=? n) && (n <=? 122))%N then ascii_of_N (n - 32) else c.

Fixpoint map_string (f : ascii → ascii) (s : string) : string :=
  match s with
  | EmptyString => EmptyString
  | String c s' => String (f c) (map_string f s')
  end.

Definition lower : string → string := map_string lower_char.
Definition upper : string → string := map_string upper_char.

Fixpoint lstrip (s : string) : string :=
  match s with
  | EmptyString => EmptyString
  | String c s' => if is_space c then lstrip s' else s
  end.

Fixpoint rstrip (s : string) : string :=
  match s with
  | EmptyString => EmptyString
  | String c s' =>
      match rstrip s' with
      | EmptyString => if is_space c then EmptyString else String c EmptyString
      | r => String c r
      end
  end.

Definition strip (s : string) : string := rstrip (lstrip s).

(** [needle in s] for two strings. *)
Fixpoint contains (needle s : string) : bool :=
  String.prefix needle s
  || match s with
     | EmptyString => false
     | String _ s' => contains needle s'
     end.

Fixpoint repeat_string (s : string) (n : nat) : string :=
  match n with
  | O => EmptyString
  | S n' => s +:+ repeat_string s n'
  end.

Fixpoint join (sep : string) (l : list string) : string :=
  match l with
  | [] => EmptyString
  | [s] => s
  | s :: l' => s +:+ sep +:+ join sep l'
  end.

(** A non-empty string is truthy. *)
Definition nonempty (s : string) : bool :=
  match s with EmptyString => false | String _ _ => true end.

(** ** Python values and exceptions *)

Inductive value :=
| VNone
| VBool (b : bool)
| VInt (z : Z)
| VFloat (bits : Z)
| VStr (s : string)
| VList (l : list value)
| VDict (d : gmap string value).

Inductive exn :=
| FileNotFoundError
| JSONDecodeError
| AttributeError
| TypeError
| KeyError
| IndexError.

Inductive outcome (A : Type) :=
| Ok (a : A)
| Raise (e : exn).
Arguments Ok {A} a.
Arguments Raise {A} e.

#[global] Instance outcome_ret : MRet outcome := λ A a, Ok a.
#[global] Instance outcome_bind : MBind outcome := λ A B k c,
  match c with Ok a => k a | Raise e => Raise e end.
#[global] Instance outcome_fmap : FMap outcome := λ A B f c,
  match c with Ok a => Ok (f a) | Raise e => Raise e end.

Fixpoint mapM_outcome {A B} (f : A → outcome B) (l : list A) : outcome (list B) :=
  match l with
  | [] => Ok []
  | a :: l' => b ← f a; bs ← mapM_outcome f l'; Ok (b :: bs)
  end.

(** *** Operations of the Python object model used by the program *)

(** [len(v)] *)
Definition py_len (v : value) : outcome nat :=
  match v with
  | VList l => Ok (length l)
  | VStr s => Ok (String.length s)
  | VDict d => Ok (size d)
  | _ => Raise TypeError
  end.

(** [v[i]] for a non-negative integer [i] *)
Definition py_index (v : value) (i : nat) : outcome value :=
  match v with
  | VList l => match l !! i with Some x => Ok x | None => Raise IndexError end
  | VStr s =>
      match String.get i s with
      | Some c => Ok (VStr (String c EmptyString))
      | None => Raise IndexError
      end
  | VDict _ => Raise KeyError
  | _ => Raise TypeError
  end.

(** [v[k]] for a string [k] *)
Definition py_getitem (v : value) (k : string) : outcome value :=
  match v with
  | VDict d => match d !! k with Some x => Ok x | None => Raise KeyError end
  | _ => Raise TypeError
  end.

(** [v.get(k, default)] *)
Definition py_get (v : value) (k : string) (dflt : value) : outcome value :=
  match v with
  | VDict d => Ok (default dflt (d !! k))
  | _ => Raise AttributeError
  end.

(** [v.append]: the bound method, as the function from the item appended to
    the list after the call; only lists have it. *)
Definition py_append (v : value) : outcome (value → value) :=
  match v with
  | VList l => Ok (λ x, VList (l ++ [x]))
  | _ => Raise AttributeError
  end.

Definition is_str (s : string) (v : value) : bool :=
  match v with VStr s' => String.eqb s' s | _ => false end.

(** [s in v] for a string [s] *)
Definition py_in (s : string) (v : value) : outcome bool :=
  match v with
  | VList l => Ok (existsb (is_str s) l)
  | VStr s' => Ok (contains s s')
  | VDict d => Ok (bool_decide (is_Some (d !! s)))
  | _ => Raise TypeError
  end.

(** [for x in v]: the items visited.  A dictionary yields its keys (in the
    order of the map, which stands for Python's insertion order). *)
Definition py_iter (v : value) : outcome (list value) :=
  match v with
  | VList l => Ok l
  | VStr s => Ok ((λ c, VStr (String c EmptyString)) <$> String.list_ascii_of_string s)
  | VDict d => Ok ((λ kv, VStr kv.1) <$> map_to_list d)
  | _ => Raise TypeError
  end.

(** The last [n] items of a list; all of them for [n = 0], as [l[-0:]] is
    [l[0:]]. *)
Definition last_items {A} (n : nat) (l : list A) : list A :=
  match n with
  | O => l
  | _ => drop (length l - n) l
  end.

(** [for x in v[-n:]]: the items visited.  Lists and strings can be sliced;
    a dictionary cannot. *)
Definition py_last (n : nat) (v : value) : outcome (list value) :=
  match v with
  | VList l => Ok (last_items n l)
  | VStr s =>
      Ok (last_items n
            ((λ c, VStr (String c EmptyString)) <$> String.list_ascii_of_string s))
  | _ => Raise TypeError
  end.

(** truth value of [v] *)
Definition py_truthy (v : value) : bool :=
  match v with
  | VNone => false
  | VBool b => b
  | VInt z => negb (z =? 0)%Z
  | VFloat bits => negb ((bits =? 0)%Z || (bits =? 2 ^ 63)%Z)
  | VStr s => nonempty s
  | VList l => match l with [] => false | _ :: _ => true end
  | VDict d => negb (bool_decide (size d = 0))
  end.

(** [d.setdefault(k, v)], giving the dictionary after the call *)
Definition setdefault (k : string) (v : value) (d : gmap string value) : gmap string value :=
  match d !! k with
  | Some _ => d
  | None => <[k := v]> d
  end.

(** ** The world: memory file, console, clock, agent *)

(** The content of [MEMORY_FILE] as [json.load] sees it: a file it rejects,
    or the value it returns.  [json_load] below raises [JSONDecodeError] on a
    file it rejects; this stands for whatever [json.load] raises there
    ([UnicodeDecodeError] on bytes that are not text, for one), and no
    property below depends on which exception it is. *)
Inductive file_content :=
| Unparseable
| Document (v : value).

Record world := World {
  fs : option file_content;   (* [None]: the file does not exist *)
  stdout : list string;       (* one string per [print] call, oldest first *)
  ticks : nat;                (* number of clock readings so far *)
  agent_status : string       (* [agent["status"]] *)
}.

Definition set_fs (f : option file_content) (w : world) : world :=
  World f (stdout w) (ticks w) (agent_status w).
Definition add_stdout (s : string) (w : world) : world :=
  World (fs w) (stdout w ++ [s]) (ticks w) (agent_status w).
Definition tick (w : world) : world :=
  World (fs w) (stdout w) (S (ticks w)) (agent_status w).
Definition set_agent_status (s : string) (w : world) : world :=
  World (fs w) (stdout w) (ticks w) s.

(** The module-level [agent] before any run, with no memory file. *)
Definition fresh : world := World None [] 0 "idle".

Definition M (A : Type) : Type := world → outcome A * world.

#[global] Instance M_ret : MRet M := λ A a w, (Ok a, w).
#[global] Instance M_bind : MBind M := λ A B k c w,
  match c w with
  | (Ok a, w') => k a w'
  | (Raise e, w') => (Raise e, w')
  end.

Definition lift {A} (c : outcome A) : M A := λ w, (c, w).
Definition modify (f : world → world) : M unit := λ w, (Ok (), f w).
Definition print (s : string) : M unit := modify (add_stdout s).

Fixpoint for_each {A} (f : A → M unit) (l : list A) : M unit :=
  match l with
  | [] => mret ()
  | a :: l' => f a;; for_each f l'
  end.

Definition agent_name : string := "Alpha".

Section Program.

(** [str(v)] of a value that is not a string. *)
Variable py_repr : value → string.
(** The text [datetime.now().isoformat(timespec="seconds")] returns at the
    n-th reading of the clock. *)
Variable clock : nat → string.

(** [str(v)], also what an f-string puts for [{v}]. *)
Definition str_of (v : value) : string :=
  match v with
  | VStr s => s
  | _ => py_repr v
  end.

Definition str_of_nat (n : nat) : string := py_repr (VInt (Z.of_nat n)).

(** *** Utilities *)

Definition now_iso : M string := λ w, (Ok (clock (ticks w)), tick w).

(** [truncate(text, limit)] for a limit that is not negative, as the program
    calls it; [truncate_at] below takes any integer. *)
Definition truncate_to (limit : nat) (text : value) : string :=
  let text := str_of text in
  if bool_decide (String.length text ≤ limit)%nat then text
  else String.substring 0 limit text +:+ "...(truncated)".

Definition truncate : value → string := truncate_to 260.

Definition path_exists : M bool := λ w,
  (Ok (match fs w with Some _ => true | None => false end), w).

Definition json_load : M value := λ w,
  match fs w with
  | None => (Raise FileNotFoundError, w)
  | Some Unparseable => (Raise JSONDecodeError, w)
  | Some (Document v) => (Ok v, w)
  end.

Definition load_memory : M (gmap string value) :=
  present ← path_exists;
  memory ← ((if present : bool then json_load else mret (VDict ∅)) : M value);
  match memory with
  | VDict memory =>
      let memory := setdefault "completed_tasks" (VList []) memory in
      let memory := setdefault "work_log" (VList []) memory in
      let memory := setdefault "content_library" (VList []) memory in
      mret memory
  | _ => lift (Raise AttributeError)
  end.

Definition save_memory (memory : gmap string value) : M unit :=
  modify (set_fs (Some (Document (VDict memory)))).

(** [memory[field].append]: the bound method, as the function from the item
    appended to the dictionary after the call. *)
Definition field_append (field : string) (memory : gmap string value)
  : outcome (value → gmap string value) :=
  l ← py_getitem (VDict memory) field;
  append ← py_append l;
  Ok (λ x, <[field := append x]> memory).

(** [memory[field].append(x)] for an [x] already evaluated *)
Definition append_field (field : string) (x : value) (memory : gmap string value)
  : outcome (gmap string value) :=
  append ← field_append field memory;
  Ok (append x).

Definition log_event (memory : gmap string value) (event : value)
  : M (gmap string value) :=
  memory ← lift (append_field "work_log" event memory);
  save_memory memory;;
  mret memory.

Definition count_status (s : string) (entries : list value) : outcome nat :=
  flags ← mapM_outcome (λ e, st ← py_get e "status" VNone; Ok (is_str s st)) entries;
  Ok (length (filter (λ b, b = true) flags)).

Definition print_memory_report (memory : gmap string value) (last_n : nat) : M unit :=
  print (nl +:+ "RUN REPORT");;
  print (repeat_string "=" 50);;
  work_log ← lift (py_getitem (VDict memory) "work_log");
  total ← lift (py_len work_log);
  entries ← lift (py_iter work_log);
  completed ← lift (count_status "completed" entries);
  clarify ← lift (count_status "clarify" entries);
  skipped ← lift (count_status "skipped" entries);
  print ("Total log entries: " +:+ str_of_nat total);;
  print ("Completed: " +:+ str_of_nat completed +:+ " | Clarify: "
         +:+ str_of_nat clarify +:+ " | Skipped: " +:+ str_of_nat skipped);;
  print (nl +:+ "Last 10 actions:");;
  print (repeat_string "-" 50);;
  recent ← lift (py_last last_n work_log);
  for_each (λ entry,
      ts ← lift (py_get entry "timestamp" VNone);
      st ← lift (py_get entry "status" VNone);
      task ← lift (py_get entry "task" VNone);
      tool ← lift (py_get entry "tool" (VStr ""));
      print (str_of ts +:+ " | " +:+ str_of st +:+ " | " +:+ str_of task
             +:+ " | " +:+ str_of tool))
    recent;;
  print (repeat_string "-" 50).

(** *** Tools (offline) *)

Definition tool_generate_topics (goal audience tone : value) : value :=
  VList [
    VStr (str_of goal +:+ ": 3 mistakes to avoid");
    VStr (str_of goal +:+ ": the step-by-step beginner roadmap");
    VStr (str_of goal +:+ ": what I wish I knew earlier");
    VStr (str_of goal +:+ ": tools and resources I actually use");
    VStr (str_of goal +:+ ": quick wins you can do this week")
  ].

Definition tool_draft_post (topic audience tone cta : value) : value :=
  VStr ("Hook: " +:+ str_of topic +:+ nl +:+ nl
        +:+ "For " +:+ str_of audience +:+ ":" +:+ nl
        +:+ "- Key point 1: Keep it simple and consistent." +:+ nl
        +:+ "- Key point 2: Focus on one clear takeaway." +:+ nl
        +:+ "- Key point 3: Take one action today." +:+ nl +:+ nl
        +:+ "Tone: " +:+ str_of tone +:+ nl
        +:+ "CTA: " +:+ str_of cta +:+ nl).

Definition tool_hashtags (niche : value) : outcome value :=
  match niche with
  | VStr niche =>
      let base := ["#contentstrategy"; "#creator"; "#marketing"; "#smallbusiness";
                   "#consistency"] in
      let base :=
        if contains "ai" (lower niche)
        then (base ++ ["#ai"; "#aiautomation"; "#aigent"; "#promptengineering";
                       "#futureofwork"])%list
        else base in
      let base :=
        if contains "real estate" (lower niche)
        then (base ++ ["#realestate"; "#realtor"; "#houstonrealestate"; "#investing";
                       "#homebuyers"])%list
        else base in
      Ok (VList (VStr <$> take 12 base))
  | _ => Raise AttributeError
  end.

Definition days : list string := ["Mon"; "Tue"; "Wed"; "Thu"; "Fri"].

Definition schedule_entry (topics : value) (i : nat) (day : string) : outcome value :=
  n ← py_len topics;
  topic ← (if bool_decide (i < n)%nat then py_index topics i
           else Ok (VStr "Bonus: behind the scenes"));
  Ok (VDict {[ "day" := VStr day; "topic" := topic ]}).

Definition tool_schedule (topics : value) : outcome value :=
  schedule ← mapM_outcome (λ p, schedule_entry topics p.1 p.2) (imap pair days);
  Ok (VList schedule).

Definition tool_clarify (question : value) : value :=
  VStr ("I need one detail: " +:+ str_of question).

(** Binding the keyword arguments [**kwargs] of a call to the parameters
    [params] of the function called. *)
Definition bind_kwargs (params : list string) (kwargs : gmap string value)
  : outcome (list value) :=
  if bool_decide (size kwargs = length params)
  then mapM_outcome
         (λ p, match kwargs !! p with Some v => Ok v | None => Raise TypeError end)
         params
  else Raise TypeError.

Definition tools : gmap string (gmap string value → outcome value) :=
  {[ "generate_topics" := (λ kwargs,
       a ← bind_kwargs ["goal"; "audience"; "tone"] kwargs;
       match a with
       | [goal; audience; tone] => Ok (tool_generate_topics goal audience tone)
       | _ => Raise TypeError
       end);
     "draft_post" := (λ kwargs,
       a ← bind_kwargs ["topic"; "audience"; "tone"; "cta"] kwargs;
       match a with
       | [topic; audience; tone; cta] => Ok (tool_draft_post topic audience tone cta)
       | _ => Raise TypeError
       end);
     "hashtags" := (λ kwargs,
       a ← bind_kwargs ["niche"] kwargs;
       match a with
       | [niche] => tool_hashtags niche
       | _ => Raise TypeError
       end);
     "schedule" := (λ kwargs,
       a ← bind_kwargs ["topics"] kwargs;
       match a with
       | [topics] => tool_schedule topics
       | _ => Raise TypeError
       end);
     "clarify" := (λ kwargs,
       a ← bind_kwargs ["question"] kwargs;
       match a with
       | [question] => Ok (tool_clarify question)
       | _ => Raise TypeError
       end) ]}.

(** The call of [tools[tool_name]] with the keyword arguments [args] *)
Definition call_tool (tool_name : string) (args : gmap string value) : outcome value :=
  match tools !! tool_name with
  | Some f => f args
  | None => Raise KeyError
  end.

(** *** Workflow definition *)

Record step := Step { id : string; tool : string }.

Definition workflow : list step := [
  Step "topics" "generate_topics";
  Step "post_1" "draft_post";
  Step "post_2" "draft_post";
  Step "post_3" "draft_post";
  Step "hashtags" "hashtags";
  Step "schedule" "schedule"
].

(** *** Decision and guardrails *)

Definition completed_key (run_key task_id : string) : string :=
  run_key +:+ ":" +:+ task_id.

Definition should_skip (task_id : string) (memory : gmap string value)
    (run_key : string) : outcome bool :=
  done ← py_getitem (VDict memory) "completed_tasks";
  py_in (completed_key run_key task_id) done.

Definition mark_done (task_id : string) (memory : gmap string value)
    (run_key : string) : M (gmap string value) :=
  memory ← lift (append_field "completed_tasks"
                   (VStr (completed_key run_key task_id)) memory);
  save_memory memory;;
  mret memory.

Definition run_key_of (content_goal : string) : string :=
  "run:" +:+ strip (lower content_goal).

(** [{"post_1": 0, "post_2": 1, "post_3": 2}.get(task_id, 0)] *)
Definition topic_index (task_id : string) : nat :=
  if String.eqb task_id "post_1" then 0
  else if String.eqb task_id "post_2" then 1
  else if String.eqb task_id "post_3" then 2
  else 0.

(** What the argument-building part of a loop iteration ends in: [continue]
    (after a clarify entry) or the arguments for the tool. *)
Inductive resolution :=
| Continue (memory : gmap string value)
| Call (args : gmap string value).

Definition clarify_step (task_id question : string) (memory : gmap string value)
  : M resolution :=
  let result := tool_clarify (VStr question) in
  ts ← now_iso;
  memory ← log_event memory (VDict {[
    "timestamp" := VStr ts;
    "task" := VStr task_id;
    "tool" := VStr "clarify";
    "status" := VStr "clarify";
    "output" := VStr (truncate result) ]});
  print (str_of result);;
  mret (Continue memory).

Section Run.

Variables content_goal audience niche tone cta : string.

Definition build_args (task_id tool_name : string)
    (memory outputs : gmap string value) : M resolution :=
  if String.eqb tool_name "generate_topics" then
    mret (Call {[ "goal" := VStr content_goal; "audience" := VStr audience;
                  "tone" := VStr tone ]})
  else if String.eqb tool_name "draft_post" then
    match outputs !! "topics" with
    | None => clarify_step task_id "I need topics first. Run generate_topics." memory
    | Some topics =>
        topic ← lift (py_index topics (topic_index task_id));
        mret (Call {[ "topic" := topic; "audience" := VStr audience;
                      "tone" := VStr tone; "cta" := VStr cta ]})
    end
  else if String.eqb tool_name "hashtags" then
    mret (Call {[ "niche" := VStr niche ]})
  else if String.eqb tool_name "schedule" then
    match outputs !! "topics" with
    | None => clarify_step task_id "I need topics first to build a schedule." memory
    | Some topics => mret (Call {[ "topics" := topics ]})
    end
  else mret (Call ∅).

(** The end of a loop iteration whose arguments are built: execute the tool,
    keep its output, store the asset, log the event, mark the step done. *)
Definition complete_step (run_key task_id tool_name : string)
    (args memory outputs : gmap string value)
  : M (gmap string value * gmap string value) :=
  result ← lift (call_tool tool_name args);
  let outputs := <[task_id := result]> outputs in
  append ← lift (field_append "content_library" memory);
  ts ← now_iso;
  let memory := append (VDict {[
    "timestamp" := VStr ts;
    "goal" := VStr content_goal;
    "asset_type" := VStr task_id;
    "tool" := VStr tool_name;
    "data" := result ]}) in
  ts ← now_iso;
  memory ← log_event memory (VDict {[
    "timestamp" := VStr ts;
    "task" := VStr task_id;
    "tool" := VStr tool_name;
    "args" := VDict args;
    "status" := VStr "completed";
    "output" := VStr (truncate result) ]});
  memory ← mark_done task_id memory run_key;
  mret (memory, outputs).

(** One iteration of [for step in workflow]; the state is the memory
    dictionary and the short-term [outputs]. *)
Definition run_step (run_key : string) (st : step)
    (state : gmap string value * gmap string value)
  : M (gmap string value * gmap string value) :=
  let '(memory, outputs) := state in
  let task_id := id st in
  let tool_name := tool st in
  skip ← lift (should_skip task_id memory run_key);
  if skip : bool then
    ts ← now_iso;
    memory ← log_event memory (VDict {[
      "timestamp" := VStr ts;
      "task" := VStr task_id;
      "tool" := VStr tool_name;
      "status" := VStr "skipped";
      "reason" := VStr "Already completed for this goal" ]});
    mret (memory, outputs)
  else
    r ← build_args task_id tool_name memory outputs;
    match r with
    | Continue memory => mret (memory, outputs)
    | Call args => complete_step run_key task_id tool_name args memory outputs
    end.

Fixpoint run_steps (run_key : string) (steps : list step)
    (state : gmap string value * gmap string value)
  : M (gmap string value * gmap string value) :=
  match steps with
  | [] => mret state
  | st :: steps' =>
      state ← run_step run_key st state;
      run_steps run_key steps' state
  end.

Definition py_join (sep : string) (v : value) : outcome string :=
  items ← py_iter v;
  parts ← mapM_outcome
             (λ x, match x with VStr s => Ok s | _ => Raise TypeError end) items;
  Ok (join sep parts).

Definition print_deliverables (outputs : gmap string value) : M unit :=
  print (nl +:+ "DELIVERABLES");;
  print (repeat_string "=" 50);;
  let topics := default (VList []) (outputs !! "topics") in
  (if py_truthy topics then
     print (nl +:+ "Topics:");;
     items ← lift (py_iter topics);
     for_each (λ t, print ("- " +:+ str_of t)) items
   else mret ());;
  for_each (λ pid,
      match outputs !! pid with
      | Some post => print (nl +:+ upper pid +:+ ":" +:+ nl +:+ str_of post)
      | None => mret ()
      end) ["post_1"; "post_2"; "post_3"];;
  match outputs !! "hashtags" with
  | Some tags =>
      print (nl +:+ "Hashtags:");;
      line ← lift (py_join " " tags);
      print line
  | None => mret ()
  end;;
  match outputs !! "schedule" with
  | Some schedule =>
      print (nl +:+ "Weekly Schedule:");;
      items ← lift (py_iter schedule);
      for_each (λ item,
          day ← lift (py_getitem item "day");
          topic ← lift (py_getitem item "topic");
          print (str_of day +:+ ": " +:+ str_of topic)) items
  | None => mret ()
  end.

Definition run_system : M unit :=
  modify (set_agent_status "working");;
  memory ← load_memory;
  let run_key := run_key_of content_goal in
  print ("Agent " +:+ agent_name +:+ " is online." +:+ nl);;
  print ("Goal: " +:+ content_goal);;
  print ("Audience: " +:+ audience);;
  print ("Niche: " +:+ niche);;
  print ("Tone: " +:+ tone);;
  print ("CTA: " +:+ cta +:+ nl);;
  print (repeat_string "-" 50);;
  if negb (nonempty (strip content_goal)) then
    let result := tool_clarify (VStr "What is the content goal?") in
    ts ← now_iso;
    memory ← log_event memory (VDict {[
      "timestamp" := VStr ts;
      "task" := VStr "clarify_goal";
      "tool" := VStr "clarify";
      "status" := VStr "clarify";
      "output" := VStr (truncate result) ]});
    print (str_of result);;
    print_memory_report memory 10
  else
    '(memory, outputs) ← run_steps run_key workflow (memory, ∅);
    print_deliverables outputs;;
    print_memory_report memory 10;;
    modify (set_agent_status "complete");;
    print (nl +:+ "Agent run complete.").

End Run.

End Program.

(** * Properties *)

Local Open Scope list_scope.

(** ** Observations on the store *)

(** The dictionary the memory file holds ([∅] when there is none). *)
Definition stored (w : world) : gmap string value :=
  match fs w with
  | Some (Document (VDict d)) => d
  | _ => ∅
  end.

(** The items of a list-valued field of a memory dictionary. *)
Definition field_list (k : string) (m : gmap string value) : list value :=
  match m !! k with
  | Some (VList l) => l
  | _ => []
  end.

Definition completed_tasks := field_list "completed_tasks".
Definition work_log := field_list "work_log".
Definition content_library := field_list "content_library".

(** A string-valued field of a log entry or of an asset. *)
Definition str_field (k : string) (e : value) : option string :=
  match e with
  | VDict d => match d !! k with Some (VStr s) => Some s | _ => None end
  | _ => None
  end.

Definition status_of := str_field "status".
Definition task_of := str_field "task".
Definition asset_type_of := str_field "asset_type".

Definition data_of (e : value) : option value :=
  match e with VDict d => d !! "data" | _ => None end.

(** ** The truncation law *)

Lemma string_length_app (s t : string) :
  String.length (s +:+ t) = (String.length s + String.length t)%nat.
Proof. induction s as [|c s IH]; simpl; [done | by rewrite IH]. Qed.

Lemma string_length_substring (n : nat) (s : string) :
  (n ≤ String.length s)%nat → String.length (String.substring 0 n s) = n.
Proof.
  revert s. induction n as [|n IH]; intros s Hn.
  - by destruct s.
  - destruct s as [|c s]; simpl in *; [lia |]. rewrite IH; [done | lia].
Qed.

(** C5. A string longer than the preview limit (260) is stored as its first
    260 characters followed by the marker [...(truncated)], so the preview
    has 274 characters; a string of at most 260 characters is stored as it
    is. *)
Theorem truncate_law (py_repr : value → string) (s : string) :
  ((260 < String.length s)%nat →
     truncate py_repr (VStr s) = String.substring 0 260 s +:+ "...(truncated)"
     ∧ String.length (truncate py_repr (VStr s)) = 274%nat)
  ∧ ((String.length s ≤ 260)%nat → truncate py_repr (VStr s) = s).
Proof.
  unfold truncate, truncate_to; simpl. split; intros Hlen.
  - rewrite bool_decide_eq_false_2 by lia. split; [done |].
    rewrite string_length_app, string_length_substring by lia. done.
  - by rewrite bool_decide_eq_true_2.
Qed.

Lemma truncate_law_witness :
  truncate (λ _, "") (VStr (repeat_string "ab" 131))
    = repeat_string "ab" 130 +:+ "...(truncated)"
  ∧ truncate (λ _, "") (VStr "short") = "short".
Proof.
  split.
  - apply (truncate_law (λ _, "") (repeat_string "ab" 131)). vm_compute. lia.
  - apply (truncate_law (λ _, "") "short"). vm_compute. lia.
Defined.

(** ** Run keys *)

Lemma lower_char_idem c : lower_char (lower_char c) = lower_char c.
Proof. by destruct c as [[] [] [] [] [] [] [] []]. Qed.

Lemma is_space_lower_char c : is_space (lower_char c) = is_space c.
Proof. by destruct c as [[] [] [] [] [] [] [] []]. Qed.

Lemma lower_idem s : lower (lower s) = lower s.
Proof.
  induction s as [|c s IH]; [done |].
  unfold lower in *. cbn [map_string]. by rewrite lower_char_idem, IH.
Qed.

Lemma lstrip_lower s : lstrip (lower s) = lower (lstrip s).
Proof.
  induction s as [|c s IH]; [done |].
  unfold lower in *. cbn [map_string lstrip]. rewrite is_space_lower_char.
  by destruct (is_space c).
Qed.

Lemma rstrip_lower s : rstrip (lower s) = lower (rstrip s).
Proof.
  induction s as [|c s IH]; [done |].
  unfold lower in *. cbn [map_string rstrip]. rewrite IH, is_space_lower_char.
  destruct (rstrip s); cbn [map_string]; [by destruct (is_space c) | done].
Qed.

Lemma strip_lower s : strip (lower s) = lower (strip s).
Proof. unfold strip. by rewrite lstrip_lower, rstrip_lower. Qed.

Lemma rstrip_idem s : rstrip (rstrip s) = rstrip s.
Proof.
  induction s as [|c s IH]; [done |]. cbn [rstrip].
  destruct (rstrip s) as [|c' r] eqn:Hr.
  - destruct (is_space c) eqn:Hc; [done |]. cbn [rstrip]. by rewrite Hc.
  - cbn [rstrip]. cbn [rstrip] in IH. by rewrite IH.
Qed.

(** The string is empty or starts with a character that is not a space. *)
Definition no_leading_space (s : string) : Prop :=
  match s with
  | EmptyString => True
  | String c _ => is_space c = false
  end.

Lemma lstrip_no_leading_space s : no_leading_space (lstrip s).
Proof.
  induction s as [|c s IH]; [done |]. cbn [lstrip].
  by destruct (is_space c) eqn:Hc.
Qed.

Lemma lstrip_rstrip s : no_leading_space s → lstrip (rstrip s) = rstrip s.
Proof.
  destruct s as [|c s]; [done |]. cbn [no_leading_space rstrip]. intros Hc.
  rewrite Hc. destruct (rstrip s); cbn [lstrip]; by rewrite Hc.
Qed.

Lemma strip_idem s : strip (strip s) = strip s.
Proof.
  unfold strip.
  by rewrite (lstrip_rstrip _ (lstrip_no_leading_space s)), rstrip_idem.
Qed.

(** C6. The run key is [run:] followed by the goal lower-cased and
    stripped, so two goals have the same run key exactly when their
    lower-cased, stripped forms are equal.  Lower-casing or stripping a goal
    beforehand does not change its run key.  ["Build Trust"] and
    ["  build trust  "] have the same run key, hence the same completion key
    for every step; ["Build Trust"] and ["Build Rapport"] do not. *)
Theorem run_key_normalization :
  (∀ g, run_key_of g = "run:" +:+ strip (lower g))
  ∧ (∀ g1 g2, run_key_of g1 = run_key_of g2 ↔ strip (lower g1) = strip (lower g2))
  ∧ (∀ g, run_key_of (lower g) = run_key_of g)
  ∧ (∀ g, run_key_of (strip g) = run_key_of g)
  ∧ run_key_of "Build Trust" = run_key_of "  build trust  "
  ∧ (∀ task_id,
       completed_key (run_key_of "Build Trust") task_id
       = completed_key (run_key_of "  build trust  ") task_id)
  ∧ run_key_of "Build Trust" ≠ run_key_of "Build Rapport".
Proof.
  split; [done |]. split; [| split; [| split; [| split; [| split]]]].
  - intros g1 g2. unfold run_key_of. split; [| by intros ->].
    intros Heq. by injection Heq.
  - intros g. unfold run_key_of. by rewrite lower_idem.
  - intros g. unfold run_key_of. by rewrite <- strip_lower, strip_idem.
  - reflexivity.
  - intros task_id. reflexivity.
  - intros Heq. vm_compute in Heq. discriminate Heq.
Qed.

Lemma run_key_normalization_witness :
  run_key_of "Build Trust" = run_key_of "BUILD TRUST ".
Proof.
  apply (proj2 (proj1 (proj2 run_key_normalization) "Build Trust" "BUILD TRUST ")).
  reflexivity.
Defined.

(** ** Loading the memory *)

(** The file holds well-formed structured data when [json.load] accepts it
    and what it holds is a record (a JSON object). *)
Definition well_formed (c : file_content) : bool :=
  match c with
  | Document (VDict _) => true
  | _ => false
  end.

Definition memory_fields : list string :=
  ["completed_tasks"; "work_log"; "content_library"].

Lemma lookup_setdefault (k k' : string) (v : value) (d : gmap string value) :
  setdefault k v d !! k' = if decide (k = k') then Some (default v (d !! k)) else d !! k'.
Proof.
  unfold setdefault. destruct (d !! k) as [x|] eqn:Hk.
  - case_decide; [by subst; rewrite Hk | done].
  - rewrite lookup_insert. by case_decide.
Qed.

Lemma load_memory_dict (d : gmap string value) (k : string) :
  setdefault "content_library" (VList [])
    (setdefault "work_log" (VList [])
       (setdefault "completed_tasks" (VList []) d)) !! k
  = if bool_decide (k ∈ memory_fields) then Some (default (VList []) (d !! k))
    else d !! k.
Proof.
  rewrite !lookup_setdefault. unfold memory_fields.
  destruct (decide (k = "completed_tasks")) as [-> | Hct]; [reflexivity |].
  destruct (decide (k = "work_log")) as [-> | Hwl]; [reflexivity |].
  destruct (decide (k = "content_library")) as [-> | Hcl]; [reflexivity |].
  rewrite !decide_False by done. rewrite bool_decide_eq_false_2; [done |].
  rewrite !elem_of_cons, elem_of_nil. tauto.
Qed.

(** With no file (read as the empty record) or a file that holds the record
    [d], [load_memory] returns [d] with the three fields defaulted. *)
Lemma load_memory_record (w : world) (d : gmap string value) :
  (fs w = None ∧ d = ∅) ∨ fs w = Some (Document (VDict d)) →
  ∃ m, load_memory w = (Ok m, w)
    ∧ (∀ k, k ∈ memory_fields → d !! k = None → m !! k = Some (VList []))
    ∧ (∀ k v, d !! k = Some v → m !! k = Some v)
    ∧ (∀ k, k ∉ memory_fields → m !! k = d !! k).
Proof.
  intros Hd.
  exists (setdefault "content_library" (VList [])
            (setdefault "work_log" (VList [])
               (setdefault "completed_tasks" (VList []) d))).
  split.
  - destruct w as [f out n st]; simpl in Hd.
    destruct Hd as [[-> ->] | ->]; reflexivity.
  - split; [| split].
    + intros k Hk Hnone. rewrite load_memory_dict, bool_decide_eq_true_2 by done.
      by rewrite Hnone.
    + intros k v Hv. rewrite load_memory_dict, Hv. by case_bool_decide.
    + intros k Hk. by rewrite load_memory_dict, bool_decide_eq_false_2.
Qed.

(** C8. [load_memory] raises when the file exists and does not hold
    well-formed structured data.  Otherwise (no file, read as the empty
    record, or a file holding the record [d]) it returns a memory in which a
    field among [completed_tasks], [work_log], [content_library] that is
    absent from [d] is an empty list, a field present in [d] has the value
    it has in [d], and every other key is as in [d]. *)
Theorem load_memory_spec (w : world) :
  (∀ c, fs w = Some c → well_formed c = false →
     ∃ e, load_memory w = (Raise e, w))
  ∧ (∀ d, (fs w = None ∧ d = ∅) ∨ fs w = Some (Document (VDict d)) →
     ∃ m, load_memory w = (Ok m, w)
       ∧ (∀ k, k ∈ memory_fields → d !! k = None → m !! k = Some (VList []))
       ∧ (∀ k v, d !! k = Some v → m !! k = Some v)
       ∧ (∀ k, k ∉ memory_fields → m !! k = d !! k)).
Proof.
  split; [| apply load_memory_record].
  intros c Hfs Hwf. destruct w as [f out n st]; simpl in Hfs; subst f.
  destruct c as [|v]; [eexists; reflexivity |].
  destruct v; try discriminate; eexists; reflexivity.
Qed.

Lemma load_memory_spec_witness :
  (∃ e, load_memory (World (Some Unparseable) [] 0 "idle")
        = (Raise e, World (Some Unparseable) [] 0 "idle"))
  ∧ (∃ m, load_memory (World (Some (Document (VDict {[ "work_log" := VInt 3 ]}))) [] 0 "idle")
          = (Ok m, World (Some (Document (VDict {[ "work_log" := VInt 3 ]}))) [] 0 "idle")
        ∧ m !! "completed_tasks" = Some (VList [])
        ∧ m !! "work_log" = Some (VInt 3)).
Proof.
  split.
  - apply (proj1 (load_memory_spec (World (Some Unparseable) [] 0 "idle")) Unparseable);
      reflexivity.
  - destruct (proj2 (load_memory_spec
        (World (Some (Document (VDict {[ "work_log" := VInt 3 ]}))) [] 0 "idle"))
        {[ "work_log" := VInt 3 ]} (or_intror eq_refl)) as (m & Hm & Habsent & Hkept & _).
    exists m. split; [exact Hm |]. split.
    + apply Habsent; [| reflexivity]. unfold memory_fields. set_solver.
    + apply Hkept. reflexivity.
Defined.

(** ** Weakest preconditions for [M] *)

(** [wp c Q E w]: run from [w], [c] returns a result and a world that
    satisfy [Q], or raises an exception in a world where they satisfy [E]. *)
Definition wp {A} (c : M A) (Q : A → world → Prop) (E : exn → world → Prop)
    (w : world) : Prop :=
  match c w with
  | (Ok a, w') => Q a w'
  | (Raise e, w') => E e w'
  end.

Lemma wp_ret {A} (a : A) Q E w : wp (mret a) Q E w = Q a w.
Proof. reflexivity. Qed.

Lemma wp_bind {A B} (c : M A) (k : A → M B) Q E w :
  wp (c ≫= k) Q E w = wp c (λ a, wp (k a) Q E) E w.
Proof. unfold wp, mbind, M_bind. by destruct (c w) as [[a|e] w']. Qed.

Lemma wp_lift {A} (c : outcome A) Q E w :
  wp (lift c) Q E w = match c with Ok a => Q a w | Raise e => E e w end.
Proof. reflexivity. Qed.

Lemma wp_modify (f : world → world) Q E w : wp (modify f) Q E w = Q () (f w).
Proof. reflexivity. Qed.

Lemma wp_print (s : string) Q E w : wp (print s) Q E w = Q () (add_stdout s w).
Proof. reflexivity. Qed.

Lemma wp_now_iso clock Q E w :
  wp (now_iso clock) Q E w = Q (clock (ticks w)) (tick w).
Proof. reflexivity. Qed.

Lemma wp_save_memory m Q E w :
  wp (save_memory m) Q E w = Q () (set_fs (Some (Document (VDict m))) w).
Proof. reflexivity. Qed.

Lemma wp_mono {A} (c : M A) (Q Q' : A → world → Prop) (E E' : exn → world → Prop) w :
  wp c Q E w →
  (∀ a w', Q a w' → Q' a w') →
  (∀ e w', E e w' → E' e w') →
  wp c Q' E' w.
Proof. unfold wp. destruct (c w) as [[a|e] w']; auto. Qed.

(** A loop body that keeps [I] keeps it over the whole loop. *)
Lemma wp_for_each {A} (f : A → M unit) (l : list A) (I : world → Prop) E w :
  (∀ a w', I w' → wp (f a) (λ _, I) E w') →
  I w →
  wp (for_each f l) (λ _, I) E w.
Proof.
  intros Hf. revert w. induction l as [|a l IH]; intros w HI; simpl.
  - by rewrite wp_ret.
  - rewrite wp_bind. eapply wp_mono; [by apply Hf | | done].
    intros u w' HI'. by apply IH.
Qed.

(** Symbolic execution of the primitive commands. *)
Ltac wp_step :=
  first [ rewrite wp_bind | rewrite wp_ret | rewrite wp_lift | rewrite wp_print
        | rewrite wp_now_iso | rewrite wp_save_memory | rewrite wp_modify ].
Ltac wp_steps := repeat wp_step.

(** ** Fields of a memory dictionary under the program's updates *)

Lemma field_list_setdefault (k k' : string) (d : gmap string value) :
  field_list k' (setdefault k (VList []) d) = field_list k' d.
Proof.
  unfold field_list. rewrite lookup_setdefault. case_decide; [subst |]; [| done].
  by destruct (d !! k') as [[]|].
Qed.

Lemma field_list_insert (k k' : string) (l : list value) (m : gmap string value) :
  field_list k' (<[k := VList l]> m) = if decide (k = k') then l else field_list k' m.
Proof. unfold field_list. rewrite lookup_insert. by case_decide. Qed.

(** What a successful [memory[k].append(x)] does to the fields. *)
Lemma append_field_Ok (k : string) (x : value) (m m' : gmap string value) :
  append_field k x m = Ok m' →
  m !! k = Some (VList (field_list k m))
  ∧ m' = <[k := VList (field_list k m ++ [x])]> m.
Proof.
  unfold append_field, field_append, field_list; simpl.
  destruct (m !! k) as [[]|]; simpl; try discriminate.
  intros [= <-]. done.
Qed.

Lemma append_field_fields (k : string) (x : value) (m m' : gmap string value) :
  append_field k x m = Ok m' →
  ∀ k', field_list k' m'
        = if decide (k = k') then field_list k' m ++ [x] else field_list k' m.
Proof.
  intros [_ ->]%append_field_Ok k'. rewrite field_list_insert.
  case_decide; by subst.
Qed.

Lemma field_append_Ok (k : string) (m : gmap string value)
    (f : value → gmap string value) :
  field_append k m = Ok f → ∀ x, append_field k x m = Ok (f x).
Proof. unfold append_field. by intros ->. Qed.

Lemma wp_conj {A} (c : M A) Q1 Q2 E1 E2 w :
  wp c Q1 E1 w → wp c Q2 E2 w →
  wp c (λ a w', Q1 a w' ∧ Q2 a w') (λ e w', E1 e w' ∧ E2 e w') w.
Proof. unfold wp. destruct (c w) as [[a|e] w']; auto. Qed.

Lemma fs_add_stdout s w : fs (add_stdout s w) = fs w.
Proof. reflexivity. Qed.
Lemma fs_tick w : fs (tick w) = fs w.
Proof. reflexivity. Qed.
Lemma fs_set_agent_status s w : fs (set_agent_status s w) = fs w.
Proof. reflexivity. Qed.
Lemma fs_set_fs f w : fs (set_fs f w) = f.
Proof. reflexivity. Qed.
Lemma stored_set_fs m w : stored (set_fs (Some (Document (VDict m))) w) = m.
Proof. reflexivity. Qed.

Create Rewrite HintDb world.
#[local] Hint Rewrite fs_add_stdout fs_tick fs_set_agent_status fs_set_fs
  stored_set_fs : world.

Ltac wp_case :=
  match goal with
  | |- match ?c with Ok _ => _ | Raise _ => _ end => destruct c eqn:?
  end.
Ltac wp_go := repeat first [ wp_step | wp_case | progress autorewrite with world ].

(** ** The console never touches the memory file *)

Section Console.

Variable py_repr : value → string.
Variable f : option file_content.

(** Holds of a command that leaves the file as it is, whatever it returns
    or raises. *)
Definition keeps_file {A} (c : M A) : Prop :=
  ∀ w, fs w = f → wp c (λ _ w', fs w' = f) (λ _ w', fs w' = f) w.

Lemma keeps_file_for_each {A} (body : A → M unit) (l : list A) :
  (∀ a, keeps_file (body a)) → keeps_file (for_each body l).
Proof.
  intros Hbody w Hw. eapply wp_mono.
  - apply (wp_for_each body l (λ w', fs w' = f) (λ _ w', fs w' = f)); [| done].
    intros a w' Hw'. eapply wp_mono; [by apply Hbody | done | done].
  - done.
  - done.
Qed.

Lemma print_memory_report_keeps_file m n :
  keeps_file (print_memory_report py_repr m n).
Proof.
  intros w Hw. unfold print_memory_report. wp_go; try done.
  eapply wp_mono.
  - apply keeps_file_for_each; [| by autorewrite with world].
    intros entry w' Hw'. wp_go; done.
  - intros u w' Hw'. wp_go. done.
  - done.
Qed.

Lemma print_deliverables_keeps_file o :
  keeps_file (print_deliverables py_repr o).
Proof.
  intros w Hw. unfold print_deliverables. wp_go.
  assert (Htopics : keeps_file
    (if py_truthy (default (VList []) (o !! "topics"))
     then print (nl +:+ "Topics:");;
          items ← lift (py_iter (default (VList []) (o !! "topics")));
          for_each (λ t, print ("- " +:+ str_of py_repr t)) items
     else mret ())).
  { intros w' Hw'. destruct (py_truthy _); wp_go; try done.
    eapply wp_mono; [apply keeps_file_for_each | done | done];
      [| by autorewrite with world].
    intros t w'' Hw''. wp_go. done. }
  eapply wp_mono; [apply Htopics; by autorewrite with world | | done].
  intros u1 w1 Hw1. wp_go.
  eapply wp_mono; [apply keeps_file_for_each; [| exact Hw1] | | done].
  { intros pid w' Hw'. destruct (o !! pid); wp_go; done. }
  intros u2 w2 Hw2. wp_go.
  assert (Htags : keeps_file
    (match o !! "hashtags" with
     | Some tags =>
         print (nl +:+ "Hashtags:");;
         line ← lift (py_join " " tags);
         print line
     | None => mret ()
     end)).
  { intros w' Hw'. destruct (o !! "hashtags"); wp_go; done. }
  eapply wp_mono; [apply Htags; exact Hw2 | | done].
  intros u3 w3 Hw3. destruct (o !! "schedule"); wp_go; try done.
  eapply wp_mono; [apply keeps_file_for_each | done | done];
    [| by autorewrite with world].
  intros item w' Hw'. wp_go; done.
Qed.

End Console.

(** ** The logs only grow *)

Section AppendOnly.

Variable py_repr : value → string.
Variable clock : nat → string.
(** The work log and the content library at some earlier point. *)
Variables wl0 cl0 : list value.

(** The memory dictionary [m] still has [wl0] and [cl0] at the front. *)
Definition extends (m : gmap string value) : Prop :=
  wl0 `prefix_of` work_log m ∧ cl0 `prefix_of` content_library m.

(** The same of the dictionary in the memory file. *)
Definition grown (w : world) : Prop := extends (stored w).

Lemma grown_fs w w' : fs w' = fs w → grown w → grown w'.
Proof. unfold grown, stored. by intros ->. Qed.

Lemma extends_append k x m m' :
  append_field k x m = Ok m' → extends m → extends m'.
Proof.
  intros Happ [Hwl Hcl]. unfold extends, work_log, content_library.
  rewrite !(append_field_fields _ _ _ _ Happ).
  split; case_decide; try done; by apply prefix_app_r.
Qed.

Lemma extends_setdefault k m : extends m → extends (setdefault k (VList []) m).
Proof.
  unfold extends, work_log, content_library. by rewrite !field_list_setdefault.
Qed.

Lemma load_memory_grown w :
  grown w →
  wp load_memory (λ m w', grown w' ∧ extends m) (λ _ w', grown w') w.
Proof.
  intros Hw. unfold wp. destruct w as [[[|[]]|] out n st]; simpl; try done.
  all: split; [done |]; by repeat apply extends_setdefault.
Qed.

Lemma log_event_grown m e w :
  extends m → grown w →
  wp (log_event m e) (λ m' w', grown w' ∧ extends m') (λ _ w', grown w') w.
Proof.
  intros Hm Hw. unfold log_event. wp_go; [| done].
  unfold grown. autorewrite with world. split; by eapply extends_append.
Qed.

Lemma mark_done_grown task m rk w :
  extends m → grown w →
  wp (mark_done task m rk) (λ m' w', grown w' ∧ extends m') (λ _ w', grown w') w.
Proof.
  intros Hm Hw. unfold mark_done. wp_go; [| done].
  unfold grown. autorewrite with world. split; by eapply extends_append.
Qed.

Definition resolved_extends (r : resolution) : Prop :=
  match r with
  | Continue m => extends m
  | Call _ => True
  end.

Lemma clarify_step_grown task q m w :
  extends m → grown w →
  wp (clarify_step py_repr clock task q m)
     (λ r w', grown w' ∧ resolved_extends r) (λ _ w', grown w') w.
Proof.
  intros Hm Hw. unfold clarify_step. wp_go.
  eapply wp_mono; [apply log_event_grown; [done | by eapply grown_fs] | | done].
  intros m' w' [Hw' Hm']. wp_go. split; [by eapply grown_fs | done].
Qed.

Section Run.

Variables content_goal audience niche tone cta : string.

Lemma build_args_grown task tool_name m o w :
  extends m → grown w →
  wp (build_args py_repr clock content_goal audience niche tone cta task tool_name m o)
     (λ r w', grown w' ∧ resolved_extends r) (λ _ w', grown w') w.
Proof.
  intros Hm Hw. unfold build_args.
  repeat case_match; wp_go; try done; by apply clarify_step_grown.
Qed.

Lemma run_step_grown rk st m o w :
  extends m → grown w →
  wp (run_step py_repr clock content_goal audience niche tone cta rk st (m, o))
     (λ s w', grown w' ∧ extends s.1) (λ _ w', grown w') w.
Proof.
  intros Hm Hw. unfold run_step. wp_go; [| done].
  case_match.
  - wp_go.
    eapply wp_mono; [apply log_event_grown; [done | by eapply grown_fs] | | done].
    intros m' w' [Hw' Hm']. by wp_go.
  - wp_go. eapply wp_mono; [by apply build_args_grown | | done].
    intros [m'|args] w' [Hw' Hr]; simpl in Hr; unfold complete_step;
      wp_go; try done.
    eapply wp_mono;
      [apply log_event_grown; [| by eapply grown_fs] | | done].
    { eapply extends_append; [by eapply field_append_Ok | done]. }
    intros m1 w1 [Hw1 Hm1]. wp_go.
    eapply wp_mono; [by apply mark_done_grown | | done].
    intros m2 w2 [Hw2 Hm2]. by wp_go.
Qed.

Lemma run_steps_grown rk steps s w :
  extends s.1 → grown w →
  wp (run_steps py_repr clock content_goal audience niche tone cta rk steps s)
     (λ s' w', grown w' ∧ extends s'.1) (λ _ w', grown w') w.
Proof.
  revert s w. induction steps as [|st steps IH]; intros [m o] w Hm Hw;
    cbn [run_steps].
  - by wp_go.
  - wp_go. eapply wp_mono; [by apply run_step_grown | | done].
    intros s' w' [Hw' Hs']. by apply IH.
Qed.

Lemma run_system_grown w :
  grown w →
  wp (run_system py_repr clock content_goal audience niche tone cta)
     (λ _ w', grown w') (λ _ w', grown w') w.
Proof.
  intros Hw. unfold run_system. wp_go.
  eapply wp_mono; [apply load_memory_grown; by eapply grown_fs | | done].
  intros m w1 [Hw1 Hm]. wp_go. case_match.
  - wp_go.
    eapply wp_mono; [apply log_event_grown; [done | by eapply grown_fs] | | done].
    intros m' w2 [Hw2 Hm']. wp_go.
    eapply wp_mono;
      [apply (print_memory_report_keeps_file py_repr (fs w2)); reflexivity | |];
      intros ? w3 Hw3; by apply (grown_fs w2).
  - wp_go.
    eapply wp_mono; [apply run_steps_grown; [done | by eapply grown_fs] | | done].
    intros [m' o] w2 [Hw2 Hm']. wp_go.
    eapply wp_mono;
      [apply (print_deliverables_keeps_file py_repr (fs w2)); reflexivity | |];
      [| intros ? w3 Hw3; by apply (grown_fs w2)].
    intros u w3 Hw3. wp_go.
    eapply wp_mono;
      [apply (print_memory_report_keeps_file py_repr (fs w2)); exact Hw3 | |];
      [| intros ? w4 Hw4; by apply (grown_fs w2)].
    intros u' w4 Hw4. wp_go. by apply (grown_fs w2).
Qed.

End Run.

End AppendOnly.

(** ** The topic lookup is always in range *)

(** An outcome that is not an [IndexError]. *)
Definition safe {A} (c : outcome A) : Prop := ∀ e, c = Raise e → e ≠ IndexError.

Lemma safe_Ok {A} (a : A) : safe (Ok a).
Proof. intros e. discriminate. Qed.

Lemma safe_bind {A B} (c : outcome A) (k : A → outcome B) :
  safe c → (∀ a, c = Ok a → safe (k a)) → safe (c ≫= k).
Proof.
  intros Hc Hk e. destruct c as [a|e']; simpl.
  - by apply Hk.
  - intros [= ->]. by apply Hc.
Qed.

Lemma safe_mapM {A B} (f : A → outcome B) (l : list A) :
  (∀ a, safe (f a)) → safe (mapM_outcome f l).
Proof.
  intros Hf. induction l as [|a l IH]; simpl; [apply safe_Ok |].
  apply safe_bind; [done |]. intros b _. apply safe_bind; [done |].
  intros bs _. apply safe_Ok.
Qed.

Lemma safe_py_len v : safe (py_len v).
Proof. intros e. destruct v; simpl; congruence. Qed.
Lemma safe_py_getitem v k : safe (py_getitem v k).
Proof. intros e. destruct v; simpl; try congruence. destruct (_ !! _); congruence. Qed.
Lemma safe_py_get v k d : safe (py_get v k d).
Proof. intros e. destruct v; simpl; congruence. Qed.
Lemma safe_py_append v : safe (py_append v).
Proof. intros e. destruct v; simpl; congruence. Qed.
Lemma safe_py_in s v : safe (py_in s v).
Proof. intros e. destruct v; simpl; congruence. Qed.
Lemma safe_py_iter v : safe (py_iter v).
Proof. intros e. destruct v; simpl; congruence. Qed.
Lemma safe_py_last n v : safe (py_last n v).
Proof. intros e. destruct v; simpl; congruence. Qed.

Lemma safe_py_join sep v : safe (py_join sep v).
Proof.
  unfold py_join. apply safe_bind; [apply safe_py_iter |]. intros items _.
  apply safe_bind; [| intros; apply safe_Ok].
  apply safe_mapM. intros x e. destruct x; congruence.
Qed.

Lemma safe_count_status s entries : safe (count_status s entries).
Proof.
  unfold count_status. apply safe_bind; [| intros; apply safe_Ok].
  apply safe_mapM. intros x. apply safe_bind; [apply safe_py_get |].
  intros; apply safe_Ok.
Qed.

Lemma safe_field_append k m : safe (field_append k m).
Proof.
  unfold field_append. apply safe_bind; [apply safe_py_getitem |]. intros l _.
  apply safe_bind; [apply safe_py_append |]. intros; apply safe_Ok.
Qed.

Lemma safe_append_field k x m : safe (append_field k x m).
Proof.
  unfold append_field. apply safe_bind; [apply safe_field_append |].
  intros; apply safe_Ok.
Qed.

Lemma safe_should_skip task m rk : safe (should_skip task m rk).
Proof.
  unfold should_skip. apply safe_bind; [apply safe_py_getitem |].
  intros; apply safe_py_in.
Qed.

Create HintDb safe discriminated.
#[local] Hint Resolve safe_Ok safe_py_len safe_py_getitem safe_py_get
  safe_py_append safe_py_in safe_py_iter safe_py_last safe_py_join
  safe_count_status
  safe_field_append safe_append_field safe_should_skip : safe.

(** Closes the exceptional branch of a lifted outcome known to be [safe]. *)
Ltac safe_raise :=
  match goal with
  | H : ?c = Raise ?e |- ?e ≠ IndexError =>
      refine (_ e H); change (safe c); auto with safe
  end.

Section InRange.

Variable py_repr : value → string.
Variable clock : nat → string.

(** The tool gives five topics. *)
Lemma tool_generate_topics_length goal audience tone :
  ∃ l, tool_generate_topics py_repr goal audience tone = VList l ∧ length l = 5.
Proof. eexists. split; reflexivity. Qed.

Lemma topic_index_bound task_id : topic_index task_id < 3.
Proof. unfold topic_index. repeat case_match; lia. Qed.

(** A list of five topics is long enough for every draft step. *)
Lemma topic_lookup_in_range (l : list value) task_id :
  length l = 5 → ∃ topic, py_index (VList l) (topic_index task_id) = Ok topic.
Proof.
  intros Hl. pose proof (topic_index_bound task_id) as Hi. simpl.
  destruct (lookup_lt_is_Some_2 l (topic_index task_id)) as [x ->]; [lia |].
  by exists x.
Qed.

(** [tool_schedule] guards its lookup and never raises [IndexError]. *)
Lemma safe_schedule_entry topics i day : safe (schedule_entry topics i day).
Proof.
  unfold schedule_entry. apply safe_bind; [apply safe_py_len |]. intros n Hn.
  apply safe_bind; [| intros; apply safe_Ok].
  case_bool_decide as Hi; [| apply safe_Ok].
  intros e. destruct topics; simpl in *; try congruence.
  - injection Hn as <-. revert i Hi. induction s as [|c s IH]; intros [|i] Hi;
      simpl in *; try lia; try congruence. apply IH. lia.
  - injection Hn as <-. destruct (lookup_lt_is_Some_2 l i Hi) as [x ->]. congruence.
Qed.

Lemma safe_tool_schedule topics : safe (tool_schedule topics).
Proof.
  unfold tool_schedule. apply safe_bind; [| intros; apply safe_Ok].
  apply safe_mapM. intros p. apply safe_schedule_entry.
Qed.

Lemma safe_tool_hashtags niche : safe (tool_hashtags niche).
Proof. intros e. destruct niche; simpl; congruence. Qed.

Lemma safe_bind_kwargs params kwargs : safe (bind_kwargs params kwargs).
Proof.
  unfold bind_kwargs. case_bool_decide; [| intros e; congruence].
  apply safe_mapM. intros p e. destruct (kwargs !! p); congruence.
Qed.

Lemma safe_call_tool tool_name args : safe (call_tool py_repr tool_name args).
Proof.
  unfold call_tool.
  destruct (tools py_repr !! tool_name) as [f|] eqn:Hf; [| intros e; congruence].
  unfold tools in Hf.
  repeat (apply lookup_insert_Some in Hf as [[_ <-] | [_ Hf]];
          [apply safe_bind; [apply safe_bind_kwargs |]; intros a _;
           repeat case_match; try apply safe_Ok; try (intros e; congruence);
           try apply safe_tool_hashtags; try apply safe_tool_schedule |]).
  apply lookup_singleton_Some in Hf as [_ <-].
  apply safe_bind; [apply safe_bind_kwargs |]. intros a _.
  repeat case_match; try apply safe_Ok; intros e; congruence.
Qed.

(** The registry dispatches each call of the workflow to its tool. *)
Lemma call_generate_topics g a t :
  call_tool py_repr "generate_topics"
    {[ "goal" := g; "audience" := a; "tone" := t ]}
  = Ok (tool_generate_topics py_repr g a t).
Proof. reflexivity. Qed.

Lemma call_draft_post topic a t c :
  call_tool py_repr "draft_post"
    {[ "topic" := topic; "audience" := a; "tone" := t; "cta" := c ]}
  = Ok (tool_draft_post py_repr topic a t c).
Proof. reflexivity. Qed.

Lemma call_hashtags n :
  call_tool py_repr "hashtags" {[ "niche" := n ]} = tool_hashtags n.
Proof. reflexivity. Qed.

Lemma call_schedule topics :
  call_tool py_repr "schedule" {[ "topics" := topics ]} = tool_schedule topics.
Proof. reflexivity. Qed.

#[local] Hint Resolve safe_call_tool safe_tool_schedule safe_tool_hashtags : safe.

Definition not_index_error (e : exn) (w : world) : Prop := e ≠ IndexError.

(** The short-term outputs hold, under [topics], nothing but a list of five
    items. *)
Definition topics_ok (o : gmap string value) : Prop :=
  ∀ v, o !! "topics" = Some v → ∃ l, v = VList l ∧ length l = 5.

Lemma topics_ok_empty : topics_ok ∅.
Proof. intros v. by rewrite lookup_empty. Qed.

Lemma topics_ok_insert_ne k v o :
  k ≠ "topics" → topics_ok o → topics_ok (<[k := v]> o).
Proof. intros Hk Ho v'. rewrite lookup_insert_ne by done. apply Ho. Qed.

Lemma load_memory_in_range w : wp load_memory (λ _ _, True) not_index_error w.
Proof. unfold wp. by destruct w as [[[|[]]|] out n st]. Qed.

Lemma log_event_in_range m e w :
  wp (log_event m e) (λ _ _, True) not_index_error w.
Proof. unfold log_event. wp_go; [done | unfold not_index_error; safe_raise]. Qed.

Lemma mark_done_in_range task m rk w :
  wp (mark_done task m rk) (λ _ _, True) not_index_error w.
Proof. unfold mark_done. wp_go; [done | unfold not_index_error; safe_raise]. Qed.

Lemma clarify_step_in_range task q m w :
  wp (clarify_step py_repr clock task q m)
     (λ r _, ∃ m', r = Continue m') not_index_error w.
Proof.
  unfold clarify_step. wp_go.
  eapply wp_mono; [apply log_event_in_range | | done].
  intros m' w' _. wp_go. by exists m'.
Qed.

Lemma print_memory_report_in_range m n w :
  wp (print_memory_report py_repr m n) (λ _ _, True) not_index_error w.
Proof.
  unfold print_memory_report. wp_go; try (unfold not_index_error; safe_raise).
  eapply wp_mono;
    [apply (wp_for_each _ _ (λ _, True) not_index_error); [| done] | | done].
  - intros entry w' _. wp_go; try (unfold not_index_error; safe_raise). done.
  - intros u w' _. by wp_go.
Qed.

Lemma print_deliverables_in_range o w :
  wp (print_deliverables py_repr o) (λ _ _, True) not_index_error w.
Proof.
  unfold print_deliverables. wp_go.
  eapply (wp_mono _ (λ _ _, True) _ not_index_error); [| | done].
  { destruct (py_truthy _); wp_go; try (unfold not_index_error; safe_raise);
      [| done].
    apply (wp_for_each _ _ (λ _, True)); [| done]. intros t w' _. by wp_go. }
  intros u1 w1 _. wp_go.
  eapply (wp_mono _ (λ _ _, True) _ not_index_error); [| | done].
  { apply (wp_for_each _ _ (λ _, True)); [| done].
    intros pid w' _. destruct (o !! pid); by wp_go. }
  intros u2 w2 _. wp_go.
  eapply (wp_mono _ (λ _ _, True) _ not_index_error); [| | done].
  { destruct (o !! "hashtags"); wp_go;
      try (unfold not_index_error; safe_raise); done. }
  intros u3 w3 _.
  destruct (o !! "schedule"); wp_go; try (unfold not_index_error; safe_raise);
    [| done].
  apply (wp_for_each _ _ (λ _, True)); [| done].
  intros item w' _. wp_go; try (unfold not_index_error; safe_raise). done.
Qed.

Section Run.

Variables content_goal audience niche tone cta : string.

(** Building the arguments of a workflow step never raises [IndexError], and
    the arguments built lead the tool to a result that keeps [topics_ok]. *)
Lemma build_args_in_range st m o w :
  st ∈ workflow → topics_ok o →
  wp (build_args py_repr clock content_goal audience niche tone cta
        (id st) (tool st) m o)
     (λ r _, match r with
             | Continue _ => True
             | Call args => ∀ result,
                 call_tool py_repr (tool st) args = Ok result →
                 topics_ok (<[id st := result]> o)
             end)
     not_index_error w.
Proof.
  intros Hst Ho. unfold workflow in Hst.
  repeat (apply elem_of_cons in Hst as [-> | Hst]); [.. | by apply elem_of_nil in Hst];
    unfold build_args; cbn [id tool]; simpl String.eqb; cbv iota.
  - wp_go. intros result. rewrite call_generate_topics. intros [= <-] v.
    rewrite lookup_insert_eq. intros [= <-]. eexists. split; reflexivity.
  - destruct (o !! "topics") as [v|] eqn:Hv.
    + destruct (Ho v Hv) as (l & -> & Hl).
      destruct (topic_lookup_in_range l "post_1" Hl) as [topic ->]. wp_go.
      intros result _. by apply topics_ok_insert_ne.
    + eapply wp_mono; [apply clarify_step_in_range | | done]. by intros r w' [m' ->].
  - destruct (o !! "topics") as [v|] eqn:Hv.
    + destruct (Ho v Hv) as (l & -> & Hl).
      destruct (topic_lookup_in_range l "post_2" Hl) as [topic ->]. wp_go.
      intros result _. by apply topics_ok_insert_ne.
    + eapply wp_mono; [apply clarify_step_in_range | | done]. by intros r w' [m' ->].
  - destruct (o !! "topics") as [v|] eqn:Hv.
    + destruct (Ho v Hv) as (l & -> & Hl).
      destruct (topic_lookup_in_range l "post_3" Hl) as [topic ->]. wp_go.
      intros result _. by apply topics_ok_insert_ne.
    + eapply wp_mono; [apply clarify_step_in_range | | done]. by intros r w' [m' ->].
  - wp_go. intros result _. by apply topics_ok_insert_ne.
  - destruct (o !! "topics") as [v|] eqn:Hv.
    + wp_go. intros result _. by apply topics_ok_insert_ne.
    + eapply wp_mono; [apply clarify_step_in_range | | done]. by intros r w' [m' ->].
Qed.

Lemma run_step_in_range rk st m o w :
  st ∈ workflow → topics_ok o →
  wp (run_step py_repr clock content_goal audience niche tone cta rk st (m, o))
     (λ s _, topics_ok s.2) not_index_error w.
Proof.
  intros Hst Ho. unfold run_step. wp_go; [| unfold not_index_error; safe_raise].
  case_match.
  - wp_go. eapply wp_mono; [apply log_event_in_range | | done].
    intros m' w' _. by wp_go.
  - wp_go. eapply wp_mono; [by apply build_args_in_range | | done].
    intros [m'|args] w' Hr; unfold complete_step; wp_go; try done;
      try (unfold not_index_error; safe_raise).
    eapply wp_mono; [apply log_event_in_range | | done].
    intros m1 w1 _. wp_go.
    eapply wp_mono; [apply mark_done_in_range | | done].
    intros m2 w2 _. wp_go. by apply Hr.
Qed.

Lemma run_steps_in_range rk steps s w :
  steps ⊆ workflow → topics_ok s.2 →
  wp (run_steps py_repr clock content_goal audience niche tone cta rk steps s)
     (λ _ _, True) not_index_error w.
Proof.
  revert s w. induction steps as [|st steps IH]; intros [m o] w Hsub Ho;
    cbn [run_steps].
  - by wp_go.
  - wp_go. eapply wp_mono; [apply run_step_in_range; [set_solver | done] | | done].
    intros s' w' Hs'. apply IH; [set_solver | done].
Qed.

Lemma run_system_in_range w :
  wp (run_system py_repr clock content_goal audience niche tone cta)
     (λ _ _, True) not_index_error w.
Proof.
  unfold run_system. wp_go.
  eapply wp_mono; [apply load_memory_in_range | | done].
  intros m w1 _. wp_go. case_match.
  - wp_go. eapply wp_mono; [apply log_event_in_range | | done].
    intros m' w2 _. wp_go. apply print_memory_report_in_range.
  - wp_go.
    eapply wp_mono;
      [apply run_steps_in_range; [done | apply topics_ok_empty] | | done].
    intros [m' o] w2 _. wp_go.
    eapply wp_mono; [apply print_deliverables_in_range | | done].
    intros u w3 _. wp_go.
    eapply wp_mono; [apply print_memory_report_in_range | | done].
    intros u' w4 _. by wp_go.
Qed.

End Run.

End InRange.

(** ** Runs on a well-typed memory *)

(** The three fields of the memory are lists. *)
Definition typed (m : gmap string value) : Prop :=
  ∀ k, k ∈ memory_fields → m !! k = Some (VList (field_list k m)).

Definition is_dict (v : value) : Prop := ∃ d, v = VDict d.

(** The file holds a persistent memory: there is none yet, or it holds a
    record whose three fields, where present, are lists, the work log being a
    list of records. *)
Definition store_ok (w : world) : Prop :=
  (fs w = None ∨ ∃ d, fs w = Some (Document (VDict d)))
  ∧ (∀ k v, k ∈ memory_fields → stored w !! k = Some v → ∃ l, v = VList l)
  ∧ Forall is_dict (work_log (stored w)).

(** *** The outcome of each step, computed from the completion keys *)

Inductive step_kind := Skipped | Clarified | Completed.

Definition status_name (k : step_kind) : string :=
  match k with
  | Skipped => "skipped"
  | Clarified => "clarify"
  | Completed => "completed"
  end.

Definition key_of (rk : string) (st : step) : string := completed_key rk (id st).

Definition is_done (rk : string) (st : step) (done : list value) : bool :=
  existsb (is_str (key_of rk st)) done.

Definition needs_topics (st : step) : bool :=
  String.eqb (tool st) "draft_post" || String.eqb (tool st) "schedule".

(** [topics] tells whether the short-term outputs have the topics. *)
Definition kind_of (rk : string) (st : step) (done : list value) (topics : bool)
  : step_kind :=
  if is_done rk st done then Skipped
  else if needs_topics st && negb topics then Clarified
  else Completed.

Definition done_after (k : step_kind) (rk : string) (st : step)
    (done : list value) : list value :=
  match k with
  | Completed => done ++ [VStr (key_of rk st)]
  | _ => done
  end.

Definition topics_after (k : step_kind) (st : step) (topics : bool) : bool :=
  match k with
  | Completed => topics || String.eqb (id st) "topics"
  | _ => topics
  end.

Fixpoint plan (rk : string) (steps : list step) (done : list value)
    (topics : bool) : list step_kind :=
  match steps with
  | [] => []
  | st :: steps' =>
      let k := kind_of rk st done topics in
      k :: plan rk steps' (done_after k rk st done) (topics_after k st topics)
  end.

(** The steps that complete, given the outcome of each step. *)
Fixpoint completed_steps (steps : list step) (ks : list step_kind) : list step :=
  match steps, ks with
  | st :: steps', Completed :: ks' => st :: completed_steps steps' ks'
  | _ :: steps', _ :: ks' => completed_steps steps' ks'
  | _, _ => []
  end.

Definition has_topics (o : gmap string value) : bool :=
  bool_decide (is_Some (o !! "topics")).

(** *** The memory under the updates of a step *)

Lemma typed_insert k l m : typed m → typed (<[k := VList l]> m).
Proof.
  intros Hm k' Hk'. rewrite field_list_insert, lookup_insert.
  case_decide; [done | by apply Hm].
Qed.

Lemma typed_lookup k m :
  typed m → k ∈ memory_fields → m !! k = Some (VList (field_list k m)).
Proof. intros Hm. apply Hm. Qed.

Lemma in_memory_fields_ct : "completed_tasks" ∈ memory_fields.
Proof. unfold memory_fields. set_solver. Qed.
Lemma in_memory_fields_wl : "work_log" ∈ memory_fields.
Proof. unfold memory_fields. set_solver. Qed.
Lemma in_memory_fields_cl : "content_library" ∈ memory_fields.
Proof. unfold memory_fields. set_solver. Qed.

Lemma append_field_typed k x m :
  typed m → k ∈ memory_fields →
  append_field k x m = Ok (<[k := VList (field_list k m ++ [x])]> m).
Proof.
  intros Hm Hk. unfold append_field, field_append; simpl.
  by rewrite (Hm k Hk).
Qed.

Lemma should_skip_typed task m rk :
  typed m →
  should_skip task m rk
  = Ok (existsb (is_str (completed_key rk task)) (completed_tasks m)).
Proof.
  intros Hm. unfold should_skip; simpl.
  by rewrite (Hm _ in_memory_fields_ct).
Qed.

(** After a successful load the memory is well typed and has the lists of
    the file. *)
Lemma load_memory_typed w :
  store_ok w →
  ∃ m, load_memory w = (Ok m, w) ∧ typed m
       ∧ ∀ k, field_list k m = field_list k (stored w).
Proof.
  intros (Hfs & Hlists & _).
  destruct (load_memory_record w (stored w)) as (m & Hload & Habs & Hkept & _).
  { unfold stored. destruct Hfs as [-> | [d ->]]; [by left | by right]. }
  exists m. split; [done |].
  assert (Hfields : ∀ k, k ∈ memory_fields →
            m !! k = Some (VList (field_list k (stored w)))).
  { intros k Hk. unfold field_list.
    destruct (stored w !! k) as [v|] eqn:Hv.
    - destruct (Hlists k v Hk Hv) as [l ->]. by apply Hkept.
    - by apply Habs. }
  assert (Heq : ∀ k, field_list k m = field_list k (stored w)).
  { intros k. destruct (decide (k ∈ memory_fields)) as [Hk | Hk].
    - unfold field_list at 1. by rewrite (Hfields k Hk).
    - unfold field_list. destruct w as [[[|[]]|] out n st]; simpl in *;
        try (destruct Hfs as [[=] | [d [=]]]);
        injection Hload as <-; by rewrite load_memory_dict, bool_decide_eq_false_2. }
  split; [| done]. intros k Hk. by rewrite Heq, Hfields.
Qed.

Section Typed.

Variable py_repr : value → string.
Variable clock : nat → string.

Definition no_exception (e : exn) (w : world) : Prop := False.

Lemma log_event_typed m e w :
  typed m →
  wp (log_event m e)
     (λ m' w', m' = <["work_log" := VList (work_log m ++ [e])]> m
               ∧ fs w' = Some (Document (VDict m')))
     no_exception w.
Proof.
  intros Hm. unfold log_event.
  rewrite wp_bind, wp_lift, (append_field_typed _ _ _ Hm in_memory_fields_wl).
  by wp_go.
Qed.

Lemma mark_done_typed task m rk w :
  typed m →
  wp (mark_done task m rk)
     (λ m' w', m' = <["completed_tasks" :=
                        VList (completed_tasks m ++ [VStr (completed_key rk task)])]> m
               ∧ fs w' = Some (Document (VDict m')))
     no_exception w.
Proof.
  intros Hm. unfold mark_done.
  rewrite wp_bind, wp_lift, (append_field_typed _ _ _ Hm in_memory_fields_ct).
  by wp_go.
Qed.

(** What a step that logs one entry [e] and nothing else makes of [m]. *)
Definition logged (e : value) (m : gmap string value) : gmap string value :=
  <["work_log" := VList (work_log m ++ [e])]> m.

Lemma logged_fields e m k :
  field_list k (logged e m)
  = if decide (k = "work_log") then work_log m ++ [e] else field_list k m.
Proof.
  unfold logged. rewrite field_list_insert. repeat case_decide; by subst.
Qed.

Lemma clarify_step_typed task q m w :
  typed m →
  wp (clarify_step py_repr clock task q m)
     (λ r w', ∃ e, r = Continue (logged e m) ∧ is_dict e
                   ∧ task_of e = Some task ∧ status_of e = Some "clarify"
                   ∧ fs w' = Some (Document (VDict (logged e m))))
     no_exception w.
Proof.
  intros Hm. unfold clarify_step. wp_go.
  eapply wp_mono; [by apply log_event_typed | | done].
  intros m' w' [-> Hfs]. wp_go. eexists. split; [reflexivity |].
  split; [by eexists |]. by repeat split.
Qed.

Section Run.

Variables content_goal audience niche tone cta : string.

Definition topics_value : value :=
  tool_generate_topics py_repr (VStr content_goal) (VStr audience) (VStr tone).

(** The schedule built from the topics of the run. *)
Definition schedule_value : value :=
  VList ((λ p, VDict {[ "day" := VStr p.1; "topic" := p.2 ]})
         <$> zip days (match topics_value with VList l => l | _ => [] end)).

Lemma tool_schedule_value : tool_schedule topics_value = Ok schedule_value.
Proof. reflexivity. Qed.

(** What the step [task_id] of the workflow returns when it completes. *)
Definition expected_output (task_id : string) : option value :=
  if String.eqb task_id "topics" then Some topics_value
  else if String.eqb task_id "hashtags" then
    match tool_hashtags (VStr niche) with
    | Ok tags => Some tags
    | Raise _ => None
    end
  else if String.eqb task_id "schedule" then Some schedule_value
  else
    match py_index topics_value (topic_index task_id) with
    | Ok topic =>
        Some (tool_draft_post py_repr topic (VStr audience) (VStr tone) (VStr cta))
    | Raise _ => None
    end.

(** The short-term outputs hold what the tools of this run return. *)
Definition outputs_ok (o : gmap string value) : Prop :=
  ∀ k v, o !! k = Some v → expected_output k = Some v.

Lemma outputs_ok_empty : outputs_ok ∅.
Proof. intros k v. by rewrite lookup_empty. Qed.

Lemma outputs_ok_insert k v o :
  expected_output k = Some v → outputs_ok o → outputs_ok (<[k := v]> o).
Proof.
  intros Hk Ho k' v'. rewrite lookup_insert. case_decide; [| by apply Ho].
  subst k'. by intros [= <-].
Qed.

Lemma outputs_ok_elim o :
  outputs_ok o →
  (∀ v, o !! "topics" = Some v → v = topics_value)
  ∧ (∀ v, o !! "hashtags" = Some v → tool_hashtags (VStr niche) = Ok v)
  ∧ (∀ v, o !! "schedule" = Some v → tool_schedule topics_value = Ok v).
Proof.
  intros Ho. repeat split; intros v Hv; apply Ho in Hv;
    unfold expected_output in Hv; simpl String.eqb in Hv; cbv iota in Hv.
  - by injection Hv.
  - by destruct (tool_hashtags (VStr niche)); [injection Hv as -> |].
  - injection Hv as <-. apply tool_schedule_value.
Qed.

Lemma tool_hashtags_Ok s : ∃ tags, tool_hashtags (VStr s) = Ok (VList (VStr <$> tags)).
Proof. eexists. reflexivity. Qed.

Lemma py_index_topics task_id :
  ∃ topic, py_index topics_value (topic_index task_id) = Ok topic.
Proof. by apply topic_lookup_in_range. Qed.

Lemma tool_schedule_topics : ∃ v, tool_schedule topics_value = Ok v.
Proof. eexists. reflexivity. Qed.

(** Arguments for a step of the workflow on a well-typed memory: a clarify
    entry exactly when the step needs the topics and they are missing;
    otherwise arguments that the tool accepts. *)
Lemma build_args_typed st m o w :
  st ∈ workflow → typed m → outputs_ok o →
  wp (build_args py_repr clock content_goal audience niche tone cta
        (id st) (tool st) m o)
     (λ r w',
        if needs_topics st && negb (has_topics o)
        then ∃ e, r = Continue (logged e m) ∧ is_dict e
                  ∧ task_of e = Some (id st) ∧ status_of e = Some "clarify"
                  ∧ fs w' = Some (Document (VDict (logged e m)))
        else ∃ args result, r = Call args
                  ∧ call_tool py_repr (tool st) args = Ok result
                  ∧ outputs_ok (<[id st := result]> o))
     no_exception w.
Proof.
  intros Hst Hm Ho. unfold workflow in Hst. unfold has_topics.
  pose proof (outputs_ok_elim o Ho) as (Ht & _ & _).
  repeat (apply elem_of_cons in Hst as [-> | Hst]); [.. | by apply elem_of_nil in Hst];
    unfold build_args, needs_topics; cbn [id tool]; simpl String.eqb;
    cbv iota; cbn [orb andb].
  - wp_go. do 2 eexists. split; [done |]. split; [apply call_generate_topics |].
    by apply outputs_ok_insert.
  - destruct (o !! "topics") as [v|] eqn:Hv.
    + rewrite bool_decide_eq_true_2 by done. cbn [negb].
      rewrite (Ht v eq_refl).
      destruct (py_index_topics "post_1") as [topic Htopic]. rewrite Htopic. wp_go.
      do 2 eexists. split; [done |]. split; [apply call_draft_post |].
      apply outputs_ok_insert; [| done].
      unfold expected_output; simpl String.eqb; cbv iota. by rewrite Htopic.
    + rewrite bool_decide_eq_false_2 by (by intros [? ?]). cbn [negb].
      by apply clarify_step_typed.
  - destruct (o !! "topics") as [v|] eqn:Hv.
    + rewrite bool_decide_eq_true_2 by done. cbn [negb].
      rewrite (Ht v eq_refl).
      destruct (py_index_topics "post_2") as [topic Htopic]. rewrite Htopic. wp_go.
      do 2 eexists. split; [done |]. split; [apply call_draft_post |].
      apply outputs_ok_insert; [| done].
      unfold expected_output; simpl String.eqb; cbv iota. by rewrite Htopic.
    + rewrite bool_decide_eq_false_2 by (by intros [? ?]). cbn [negb].
      by apply clarify_step_typed.
  - destruct (o !! "topics") as [v|] eqn:Hv.
    + rewrite bool_decide_eq_true_2 by done. cbn [negb].
      rewrite (Ht v eq_refl).
      destruct (py_index_topics "post_3") as [topic Htopic]. rewrite Htopic. wp_go.
      do 2 eexists. split; [done |]. split; [apply call_draft_post |].
      apply outputs_ok_insert; [| done].
      unfold expected_output; simpl String.eqb; cbv iota. by rewrite Htopic.
    + rewrite bool_decide_eq_false_2 by (by intros [? ?]). cbn [negb].
      by apply clarify_step_typed.
  - wp_go. destruct (tool_hashtags_Ok niche) as [tags Htags].
    do 2 eexists. split; [done |]. split; [by rewrite call_hashtags |].
    apply outputs_ok_insert; [| done].
    unfold expected_output; simpl String.eqb; cbv iota. by rewrite Htags.
  - destruct (o !! "topics") as [v|] eqn:Hv.
    + rewrite bool_decide_eq_true_2 by done. cbn [negb].
      rewrite (Ht v eq_refl). wp_go.
      do 2 eexists. split; [done |].
      split; [rewrite call_schedule; apply tool_schedule_value |].
      by apply outputs_ok_insert.
    + rewrite bool_decide_eq_false_2 by (by intros [? ?]). cbn [negb].
      by apply clarify_step_typed.
Qed.

Lemma field_append_typed k m :
  typed m → k ∈ memory_fields →
  field_append k m = Ok (λ x, <[k := VList (field_list k m ++ [x])]> m).
Proof. intros Hm Hk. unfold field_append; simpl. by rewrite (Hm k Hk). Qed.

(** [m'] is well typed and has these completion keys, log and library. *)
Definition fields_are (m' : gmap string value) (ct wl cl : list value) : Prop :=
  typed m' ∧ completed_tasks m' = ct ∧ work_log m' = wl ∧ content_library m' = cl.

Lemma fields_are_logged e m :
  typed m →
  fields_are (logged e m) (completed_tasks m) (work_log m ++ [e]) (content_library m).
Proof.
  intros Hm. split; [by apply typed_insert |].
  unfold completed_tasks, work_log, content_library. by rewrite !logged_fields.
Qed.

Lemma complete_step_typed rk task tool_name args result m o w :
  typed m → call_tool py_repr tool_name args = Ok result →
  wp (complete_step py_repr clock content_goal rk task tool_name args m o)
     (λ s' w', ∃ a e,
        s'.2 = <[task := result]> o
        ∧ fields_are s'.1 (completed_tasks m ++ [VStr (completed_key rk task)])
            (work_log m ++ [e]) (content_library m ++ [a])
        ∧ is_dict e ∧ task_of e = Some task ∧ status_of e = Some "completed"
        ∧ asset_type_of a = Some task ∧ data_of a = Some result
        ∧ fs w' = Some (Document (VDict s'.1)))
     no_exception w.
Proof.
  intros Hm Hcall. unfold complete_step.
  rewrite wp_bind, wp_lift, Hcall, wp_bind, wp_lift,
    (field_append_typed _ _ Hm in_memory_fields_cl).
  wp_go.
  eapply wp_mono; [apply log_event_typed; by apply typed_insert | | done].
  intros m1 w1 [-> Hw1]. wp_go.
  eapply wp_mono;
    [apply mark_done_typed; by do 2 apply typed_insert | | done].
  intros m2 w2 [-> Hw2]. wp_go.
  cbn [fst snd]. do 2 eexists. split; [reflexivity |]. split.
  { split; [by do 3 apply typed_insert |].
    unfold completed_tasks, work_log, content_library.
    rewrite !field_list_insert.
    by repeat first [rewrite decide_False by done | rewrite decide_True by done]. }
  split; [by eexists |]. by repeat split.
Qed.

(** What one iteration does to a well-typed memory [s.1] and to the outputs
    [s.2], by the kind of outcome the completion keys and the outputs
    determine. *)
Definition step_post (rk : string) (st : step)
    (s s' : gmap string value * gmap string value) : Prop :=
  let k := kind_of rk st (completed_tasks s.1) (has_topics s.2) in
  ∃ e assets,
    is_dict e ∧ task_of e = Some (id st) ∧ status_of e = Some (status_name k)
    ∧ fields_are s'.1 (done_after k rk st (completed_tasks s.1))
        (work_log s.1 ++ [e]) (content_library s.1 ++ assets)
    ∧ has_topics s'.2 = topics_after k st (has_topics s.2)
    ∧ match k with
      | Completed => ∃ a, assets = [a] ∧ asset_type_of a = Some (id st)
                          ∧ data_of a = expected_output (id st)
                          ∧ s'.2 !! id st = expected_output (id st)
      | _ => assets = [] ∧ s'.2 = s.2
      end.

Lemma has_topics_insert k v o :
  has_topics (<[k := v]> o) = has_topics o || String.eqb k "topics".
Proof.
  unfold has_topics. destruct (String.eqb_spec k "topics") as [-> | Hk].
  - rewrite lookup_insert_eq, orb_true_r. by apply bool_decide_eq_true_2.
  - by rewrite lookup_insert_ne, orb_false_r.
Qed.

Lemma run_step_typed rk st m o w :
  st ∈ workflow → typed m → outputs_ok o →
  wp (run_step py_repr clock content_goal audience niche tone cta rk st (m, o))
     (λ s' w', step_post rk st (m, o) s' ∧ outputs_ok s'.2
               ∧ fs w' = Some (Document (VDict s'.1)))
     no_exception w.
Proof.
  intros Hst Hm Ho. unfold run_step, step_post, kind_of, is_done, key_of.
  cbn [fst snd].
  rewrite wp_bind, wp_lift, (should_skip_typed _ _ _ Hm).
  destruct (existsb _ (completed_tasks m)) eqn:Hdone.
  - wp_go. eapply wp_mono; [by apply log_event_typed | | done].
    intros m' w' [-> Hw']. wp_go. cbn [fst snd]. split; [| done].
    match goal with
    | |- context [<["work_log" := VList (work_log m ++ [?e])]> m] => exists e, []
    end.
    rewrite app_nil_r.
    split; [by eexists |]. split; [reflexivity |]. split; [reflexivity |].
    split; [by apply (fields_are_logged _ m) |]. done.
  - wp_go. eapply wp_mono; [by apply build_args_typed | | done].
    intros r w'. destruct (needs_topics st && negb (has_topics o)).
    + intros (e & -> & He & Htask & Hstatus & Hw'). wp_go. cbn [fst snd].
      split; [| done]. exists e, []. rewrite app_nil_r.
      split; [done |]. split; [done |]. split; [done |].
      split; [by apply fields_are_logged |]. done.
    + intros (args & result & -> & Hcall & Ho').
      eapply wp_mono; [by apply complete_step_typed | | done].
      intros [m' o'] w'' (a & e & Ho'' & Hfields & He & Htask & Hstatus
                          & Hatype & Hdata & Hw''). cbn [fst snd] in *. subst o'.
      split; [| done]. exists e, [a].
      split; [done |]. split; [done |]. split; [done |].
      split; [done |]. split; [apply has_topics_insert |].
      exists a. rewrite lookup_insert_eq.
      rewrite (Ho' (id st) result) by apply lookup_insert_eq. by rewrite Hdata.
Qed.

(** What the steps [steps] make of a well-typed memory with completion keys
    [ct], work log [wl] and content library [cl]: one log entry per step,
    with the status [plan] computes; one asset and one completion key per
    completed step, in the order of the steps. *)
Definition steps_effect (rk : string) (steps : list step) (ct wl cl : list value)
    (topics : bool) (m' : gmap string value) : Prop :=
  let ks := plan rk steps ct topics in
  ∃ entries assets,
    Forall is_dict entries
    ∧ task_of <$> entries = (λ st, Some (id st)) <$> steps
    ∧ status_of <$> entries = (λ k, Some (status_name k)) <$> ks
    ∧ asset_type_of <$> assets = (λ st, Some (id st)) <$> completed_steps steps ks
    ∧ data_of <$> assets = (λ st, expected_output (id st)) <$> completed_steps steps ks
    ∧ fields_are m'
        (ct ++ ((λ st, VStr (key_of rk st)) <$> completed_steps steps ks))
        (wl ++ entries) (cl ++ assets).

Lemma run_steps_typed rk steps s w :
  steps ⊆ workflow → typed s.1 → outputs_ok s.2 →
  wp (run_steps py_repr clock content_goal audience niche tone cta rk steps s)
     (λ s' w',
        steps_effect rk steps (completed_tasks s.1) (work_log s.1)
          (content_library s.1) (has_topics s.2) s'.1
        ∧ outputs_ok s'.2
        ∧ ((steps = [] ∧ s' = s ∧ fs w' = fs w)
           ∨ fs w' = Some (Document (VDict s'.1))))
     no_exception w.
Proof.
  revert s w. induction steps as [|st steps IH]; intros [m o] w Hsub Hm Ho;
    cbn [run_steps fst snd] in *.
  - wp_go. cbn [fst snd]. split; [| split; [done | by left]].
    exists [], []. rewrite !app_nil_r. by repeat split.
  - rewrite wp_bind.
    eapply wp_mono; [apply run_step_typed; [set_solver | done | done] | | done].
    intros [m1 o1] w1 (Hstep & Ho1 & Hw1). cbn [fst snd] in *.
    destruct Hstep as (e & assets1 & He & Htask & Hstatus & Hfields & Htopics & Hk).
    cbn [fst snd] in *. destruct Hfields as (Hm1 & Hct1 & Hwl1 & Hcl1).
    eapply wp_mono; [apply (IH (m1, o1)); [set_solver | done | done] | | done].
    intros [m2 o2] w2 (Hsteps & Ho2 & Hw2). cbn [fst snd] in *.
    split; [| split; [done |]].
    + destruct Hsteps as (entries & assets2 & Hes & Htasks & Hstatuses & Hatypes
                          & Hdatas & Hm2 & Hct2 & Hwl2 & Hcl2).
      rewrite Hct1, Htopics, Hwl1, Hcl1 in *.
      unfold steps_effect. cbn [plan].
      set (k := kind_of rk st (completed_tasks m) (has_topics o)) in *.
      set (ks := plan rk steps (done_after k rk st (completed_tasks m))
                   (topics_after k st (has_topics o))) in *.
      exists (e :: entries), (assets1 ++ assets2).
      split; [by constructor |]. split; [by rewrite !fmap_cons, Htask, Htasks |].
      split; [by rewrite !fmap_cons, Hstatus, Hstatuses |].
      rewrite !fmap_app, Hatypes, Hdatas.
      destruct k; cbn [completed_steps done_after] in *.
      * destruct Hk as [-> _]. split; [done |]. split; [done |].
        split; [done |]. by rewrite <- !app_assoc in *.
      * destruct Hk as [-> _]. split; [done |]. split; [done |].
        split; [done |]. by rewrite <- !app_assoc in *.
      * destruct Hk as (a & -> & Hatype & Hdata & _).
        split; [by rewrite fmap_cons, Hatype |].
        split; [by rewrite fmap_cons, Hdata |].
        split; [done |]. rewrite fmap_cons. by rewrite <- !app_assoc in *.
    + right. destruct Hw2 as [(_ & [= -> ->] & ->) | Hw2]; done.
Qed.

(** *** The console reports of a run on a well-typed memory return *)

Lemma wp_for_each_elem {A} (body : A → M unit) (l : list A) (I : world → Prop) E w :
  (∀ a, a ∈ l → ∀ w', I w' → wp (body a) (λ _, I) E w') →
  I w →
  wp (for_each body l) (λ _, I) E w.
Proof.
  revert w. induction l as [|a l IH]; intros w Hbody HI; cbn [for_each].
  - by rewrite wp_ret.
  - rewrite wp_bind. eapply wp_mono; [apply Hbody; [set_solver | done] | | done].
    intros u w' HI'. apply IH; [| done]. intros a' Ha'. apply Hbody. set_solver.
Qed.

Lemma count_status_dicts s entries :
  Forall is_dict entries → ∃ n, count_status s entries = Ok n.
Proof.
  intros Hes. unfold count_status.
  assert (∃ flags, mapM_outcome
            (λ e, st ← py_get e "status" VNone; Ok (is_str s st)) entries
          = Ok flags) as [flags ->]; [| by eexists].
  induction Hes as [|e entries [d ->] _ [flags IH]]; [by eexists |].
  cbn [mapM_outcome py_get]. simpl. rewrite IH. by eexists.
Qed.

Lemma print_memory_report_returns m n w :
  typed m → Forall is_dict (work_log m) →
  wp (print_memory_report py_repr m n) (λ _ _, True) no_exception w.
Proof.
  intros Hm Hlog. unfold print_memory_report. wp_steps.
  cbn [py_getitem]. rewrite (Hm _ in_memory_fields_wl). fold (work_log m).
  wp_steps. cbn [py_len py_iter]. wp_steps.
  destruct (count_status_dicts "completed" _ Hlog) as [n1 ->].
  destruct (count_status_dicts "clarify" _ Hlog) as [n2 ->].
  destruct (count_status_dicts "skipped" _ Hlog) as [n3 ->].
  wp_steps. cbn [py_last]. wp_steps.
  eapply wp_mono;
    [apply (wp_for_each_elem _ _ (λ _, True) no_exception); [| done] | | done].
  - intros entry Hentry w' _.
    assert (is_dict entry) as [d ->].
    { rewrite Forall_forall in Hlog. apply Hlog. unfold last_items in Hentry.
      destruct n; [done |]. by eapply subseteq_drop. }
    by wp_steps.
  - intros u w' _. by wp_steps.
Qed.

Lemma py_join_strs sep (tags : list string) :
  py_join sep (VList (VStr <$> tags)) = Ok (join sep tags).
Proof.
  unfold py_join. cbn [py_iter mbind outcome_bind].
  assert (mapM_outcome
            (λ x, match x with VStr s => Ok s | _ => Raise TypeError end)
            (VStr <$> tags) = Ok tags) as ->; [| done].
  induction tags as [|t tags IH]; [done |].
  rewrite fmap_cons. cbn [mapM_outcome]. simpl. by rewrite IH.
Qed.

Lemma print_deliverables_returns o w :
  outputs_ok o →
  wp (print_deliverables py_repr o) (λ _ _, True) no_exception w.
Proof.
  intros (Ht & Hh & Hs)%outputs_ok_elim. unfold print_deliverables. wp_steps.
  eapply (wp_mono _ (λ _ _, True) _ no_exception); [| | done].
  { destruct (o !! "topics") as [v|]; [rewrite (Ht v eq_refl) |]; cbn [default].
    - cbn [py_truthy topics_value tool_generate_topics]. wp_steps.
      cbn [py_iter]. wp_steps.
      apply (wp_for_each _ _ (λ _, True)); [| done]. intros t w' _. by wp_steps.
    - cbn [py_truthy]. by wp_steps. }
  intros u1 w1 _. wp_steps.
  eapply (wp_mono _ (λ _ _, True) _ no_exception); [| | done].
  { apply (wp_for_each _ _ (λ _, True)); [| done].
    intros pid w' _. destruct (o !! pid); by wp_steps. }
  intros u2 w2 _. wp_steps.
  eapply (wp_mono _ (λ _ _, True) _ no_exception); [| | done].
  { destruct (o !! "hashtags") as [v|]; [| by wp_steps].
    destruct (tool_hashtags_Ok niche) as [tags Htags].
    pose proof (Hh v eq_refl) as Hv. rewrite Htags in Hv. injection Hv as <-.
    wp_steps. rewrite py_join_strs. by wp_steps. }
  intros u3 w3 _. destruct (o !! "schedule") as [v|]; [| by wp_steps].
  pose proof (Hs v eq_refl) as Hv. rewrite tool_schedule_value in Hv.
  injection Hv as <-. wp_steps. cbn [py_iter schedule_value]. wp_steps.
  apply (wp_for_each_elem _ _ (λ _, True)); [| done].
  intros item Hitem w' _. apply list_elem_of_fmap in Hitem as ([day topic] & -> & _).
  by wp_steps.
Qed.

(** A command that satisfies [wp] with no exception allowed returns. *)
Lemma wp_returns {A} (c : M A) Q w :
  wp c Q no_exception w → ∃ a w', c w = (Ok a, w') ∧ Q a w'.
Proof. unfold wp. destruct (c w) as [[a|e] w']; [by eauto | done]. Qed.

(** A report on a well-typed memory with a log of records returns and
    leaves the file as it is. *)
Lemma print_memory_report_typed m n w :
  typed m → Forall is_dict (work_log m) →
  wp (print_memory_report py_repr m n) (λ _ w', fs w' = fs w) no_exception w.
Proof.
  intros Hm Hlog. eapply wp_mono.
  - apply wp_conj;
      [exact (print_memory_report_keeps_file py_repr (fs w) m n w eq_refl)
      | by apply print_memory_report_returns].
  - by intros u w' [? _].
  - by intros e w' [_ ?].
Qed.

Lemma print_deliverables_typed o w :
  outputs_ok o →
  wp (print_deliverables py_repr o) (λ _ w', fs w' = fs w) no_exception w.
Proof.
  intros Ho. eapply wp_mono.
  - apply wp_conj;
      [exact (print_deliverables_keeps_file py_repr (fs w) o w eq_refl)
      | by apply print_deliverables_returns].
  - by intros u w' [? _].
  - by intros e w' [_ ?].
Qed.

Lemma store_ok_saved m w :
  typed m → Forall is_dict (work_log m) →
  fs w = Some (Document (VDict m)) → store_ok w.
Proof.
  intros Hm Hlog Hw. unfold store_ok, stored. rewrite Hw.
  split; [by eauto |]. split; [| done].
  intros k v Hk. rewrite (Hm k Hk). intros [= <-]. by eexists.
Qed.

(** A run with a non-blank goal on a persistent memory returns, and the
    memory it leaves in the file is the one loaded after the six steps. *)
Lemma run_system_typed w :
  store_ok w → nonempty (strip content_goal) = true →
  ∃ w', run_system py_repr clock content_goal audience niche tone cta w = (Ok (), w')
    ∧ store_ok w'
    ∧ steps_effect (run_key_of content_goal) workflow
        (completed_tasks (stored w)) (work_log (stored w))
        (content_library (stored w)) false (stored w').
Proof.
  intros Hw Hgoal.
  destruct (load_memory_typed (set_agent_status "working" w))
    as (m & Hload & Hm & Hfields); [done |].
  assert (Hlog : Forall is_dict (work_log m)).
  { unfold work_log. rewrite Hfields. apply Hw. }
  cut (wp (run_system py_repr clock content_goal audience niche tone cta)
         (λ _ w', store_ok w'
            ∧ steps_effect (run_key_of content_goal) workflow
                (completed_tasks (stored w)) (work_log (stored w))
                (content_library (stored w)) false (stored w'))
         no_exception w).
  { intros ([] & w' & Hrun & Hpost)%wp_returns. by exists w'. }
  unfold run_system. rewrite wp_bind, wp_modify, wp_bind.
  unfold wp at 1. rewrite Hload. rewrite Hgoal. cbn [negb]. wp_steps.
  eapply wp_mono;
    [apply run_steps_typed; [done | done | apply outputs_ok_empty] | | done].
  intros [m' o'] w1 (Heffect & Ho' & Hw1). cbn [fst snd] in *.
  destruct Hw1 as [([=] & _) | Hw1].
  unfold completed_tasks, work_log, content_library in Heffect.
  rewrite !Hfields in Heffect.
  assert (Hm' : typed m' ∧ Forall is_dict (work_log m')).
  { destruct Heffect as (entries & assets & Hes & _ & _ & _ & _ & Htyped & _ & Hwl & _).
    split; [done |]. rewrite Hwl. apply Forall_app. split; [apply Hw | done]. }
  destruct Hm' as [Hm' Hlog'].
  rewrite wp_bind. eapply wp_mono; [by apply print_deliverables_typed | | done].
  intros u2 w2 Hw2. rewrite wp_bind.
  eapply wp_mono; [by apply print_memory_report_typed | | done].
  intros u3 w3 Hw3. wp_steps.
  assert (Hfs : fs (add_stdout (nl +:+ "Agent run complete.")
                      (set_agent_status "complete" w3))
                = Some (Document (VDict m'))).
  { autorewrite with world. by rewrite Hw3, Hw2. }
  split; [by eapply store_ok_saved |].
  unfold stored. by rewrite Hfs.
Qed.

(** A run with a blank goal on a persistent memory returns after logging
    one clarify entry. *)
Lemma run_system_blank w :
  store_ok w → nonempty (strip content_goal) = false →
  ∃ w' e,
    run_system py_repr clock content_goal audience niche tone cta w = (Ok (), w')
    ∧ store_ok w'
    ∧ task_of e = Some "clarify_goal" ∧ status_of e = Some "clarify"
    ∧ work_log (stored w') = work_log (stored w) ++ [e]
    ∧ completed_tasks (stored w') = completed_tasks (stored w)
    ∧ content_library (stored w') = content_library (stored w).
Proof.
  intros Hw Hgoal.
  destruct (load_memory_typed (set_agent_status "working" w))
    as (m & Hload & Hm & Hfields); [done |].
  assert (Hlog : Forall is_dict (work_log m)).
  { unfold work_log. rewrite Hfields. apply Hw. }
  cut (wp (run_system py_repr clock content_goal audience niche tone cta)
         (λ _ w', ∃ e, store_ok w'
            ∧ task_of e = Some "clarify_goal" ∧ status_of e = Some "clarify"
            ∧ work_log (stored w') = work_log (stored w) ++ [e]
            ∧ completed_tasks (stored w') = completed_tasks (stored w)
            ∧ content_library (stored w') = content_library (stored w))
         no_exception w).
  { intros ([] & w' & Hrun & e & Hpost)%wp_returns. by exists w', e. }
  unfold run_system. rewrite wp_bind, wp_modify, wp_bind.
  unfold wp at 1. rewrite Hload. rewrite Hgoal. cbn [negb]. wp_steps.
  eapply wp_mono; [by apply log_event_typed | | done].
  intros m' w1 [-> Hw1]. wp_steps.
  match goal with
  | |- context [<["work_log" := VList (work_log m ++ [?e])]> m] =>
      fold (logged e m) in *; destruct (fields_are_logged e m Hm)
        as (Hm' & Hct & Hwl & Hcl); set (entry := e) in *
  end.
  assert (Hlog' : Forall is_dict (work_log (logged entry m))).
  { rewrite Hwl. apply Forall_app. split; [done |].
    constructor; [by eexists | done]. }
  eapply wp_mono; [by apply print_memory_report_typed | | done].
  intros u2 w2 Hw2. exists entry.
  assert (Hfs : fs w2 = Some (Document (VDict (logged entry m)))).
  { rewrite Hw2. by autorewrite with world. }
  split; [by eapply store_ok_saved |].
  unfold stored at 1 3 5. rewrite Hfs.
  split; [reflexivity |]. split; [reflexivity |].
  rewrite Hwl, Hct, Hcl. unfold completed_tasks, work_log, content_library.
  by rewrite !Hfields.
Qed.

End Run.

End Typed.

(** * The claims of the specification *)

(** ** C1: the first run on a fresh store *)

Lemma store_ok_fresh out n status : store_ok (World None out n status).
Proof.
  split; [by left |]. split; [| by constructor].
  intros k v _. unfold stored; simpl. by rewrite lookup_empty.
Qed.

(** C1 (as amended). On a store with no memory file, a run with the goal
    [Grow my newsletter] returns after logging six entries, one per step of
    the workflow and all [completed]; it adds six completion keys and six
    assets, one per step; and the output of the schedule step has the five
    weekdays Mon to Fri, each with one of the five topics. *)
Theorem fresh_run_completes_six_steps
    (py_repr : value → string) (clock : nat → string)
    (audience niche tone cta : string)
    (out : list string) (n : nat) (status : string) :
  ∃ w' schedule_asset,
    run_system py_repr clock "Grow my newsletter" audience niche tone cta
      (World None out n status) = (Ok (), w')
    ∧ task_of <$> work_log (stored w')
      = Some <$> ["topics"; "post_1"; "post_2"; "post_3"; "hashtags"; "schedule"]
    ∧ status_of <$> work_log (stored w') = replicate 6 (Some "completed")
    ∧ completed_tasks (stored w')
      = VStr <$> ["run:grow my newsletter:topics"; "run:grow my newsletter:post_1";
                  "run:grow my newsletter:post_2"; "run:grow my newsletter:post_3";
                  "run:grow my newsletter:hashtags";
                  "run:grow my newsletter:schedule"]
    ∧ asset_type_of <$> content_library (stored w')
      = Some <$> ["topics"; "post_1"; "post_2"; "post_3"; "hashtags"; "schedule"]
    ∧ content_library (stored w') !! 5 = Some schedule_asset
    ∧ data_of schedule_asset
      = Some (VList [
          VDict {[ "day" := VStr "Mon";
                   "topic" := VStr "Grow my newsletter: 3 mistakes to avoid" ]};
          VDict {[ "day" := VStr "Tue";
                   "topic" :=
                     VStr "Grow my newsletter: the step-by-step beginner roadmap" ]};
          VDict {[ "day" := VStr "Wed";
                   "topic" := VStr "Grow my newsletter: what I wish I knew earlier" ]};
          VDict {[ "day" := VStr "Thu";
                   "topic" :=
                     VStr "Grow my newsletter: tools and resources I actually use" ]};
          VDict {[ "day" := VStr "Fri";
                   "topic" :=
                     VStr "Grow my newsletter: quick wins you can do this week" ]} ]).
Proof.
  destruct (run_system_typed py_repr clock "Grow my newsletter" audience niche
              tone cta (World None out n status))
    as (w' & Hrun & _ & entries & assets & _ & Htasks & Hstatuses & Htypes
        & Hdatas & _ & Hct & Hwl & Hcl); [apply store_ok_fresh | done |].
  change (work_log (stored (World None out n status))) with (@nil value) in Hwl.
  change (content_library (stored (World None out n status))) with (@nil value) in Hcl.
  change (completed_tasks (stored (World None out n status))) with (@nil value)
    in Hct, Htypes, Hdatas, Hstatuses.
  rewrite app_nil_l in Hwl, Hcl, Hct.
  assert (Hplan : plan (run_key_of "Grow my newsletter") workflow [] false
                  = replicate 6 Completed) by (by vm_compute).
  rewrite Hplan in Hstatuses, Htypes, Hdatas, Hct.
  cbn [completed_steps workflow replicate fmap list_fmap id] in *.
  destruct assets as [|a1 [|a2 [|a3 [|a4 [|a5 [|a6 [|]]]]]]]; try discriminate Htypes.
  exists w', a6. rewrite Hwl, Hct, Hcl. split; [done |].
  split; [done |]. split; [done |]. split; [by vm_compute |].
  split; [done |]. split; [done |].
  injection Hdatas as _ _ _ _ _ ->. reflexivity.
Qed.

(** The claim as stated fails: the run adds six completion keys and six
    assets, not five. *)
Lemma fresh_run_does_not_add_five :
  ¬ (length (completed_tasks (stored
       (run_system (λ _, "") (λ _, "") "Grow my newsletter" "" "" "" "" fresh).2)) = 5
     ∧ length (content_library (stored
       (run_system (λ _, "") (λ _, "") "Grow my newsletter" "" "" "" "" fresh).2)) = 5).
Proof. vm_compute. intros [H _]. discriminate H. Qed.

(** ** C4: a blank goal *)

(** The goal is empty or has only whitespace. *)
Definition blank (s : string) : bool :=
  forallb is_space (String.list_ascii_of_string s).

Lemma rstrip_head c s : is_space c = false → nonempty (rstrip (String c s)) = true.
Proof. intros Hc. cbn [rstrip]. rewrite Hc. by destruct (rstrip s). Qed.

Lemma nonempty_strip s : nonempty (strip s) = negb (blank s).
Proof.
  unfold strip, blank. induction s as [|c s IH]; [done |].
  cbn [lstrip String.list_ascii_of_string forallb].
  destruct (is_space c) eqn:Hc; [done |]. by rewrite rstrip_head.
Qed.

(** C4. On a persistent memory, a run whose goal is empty or has only
    whitespace returns after appending exactly one log entry, of status
    [clarify] and for no step of the workflow; it appends no asset and adds
    no completion key. *)
Theorem blank_goal_clarifies
    (py_repr : value → string) (clock : nat → string)
    (content_goal audience niche tone cta : string) (w : world) :
  store_ok w → blank content_goal = true →
  ∃ w' e,
    run_system py_repr clock content_goal audience niche tone cta w = (Ok (), w')
    ∧ work_log (stored w') = work_log (stored w) ++ [e]
    ∧ status_of e = Some "clarify"
    ∧ task_of e = Some "clarify_goal"
    ∧ content_library (stored w') = content_library (stored w)
    ∧ completed_tasks (stored w') = completed_tasks (stored w).
Proof.
  intros Hw Hblank.
  destruct (run_system_blank py_repr clock content_goal audience niche tone cta w)
    as (w' & e & Hrun & _ & Htask & Hstatus & Hwl & Hct & Hcl); [done | |].
  { by rewrite nonempty_strip, Hblank. }
  by exists w', e.
Qed.

(** ** C7: the work log and the content library only grow *)

(** The arguments of one call of [run_system]. *)
Record call := Call_run {
  call_goal : string;
  call_audience : string;
  call_niche : string;
  call_tone : string;
  call_cta : string
}.

(** The world after a sequence of runs, whether they return or raise. *)
Definition run_calls (py_repr : value → string) (clock : nat → string)
    (calls : list call) (w : world) : world :=
  foldl (λ w c, (run_system py_repr clock (call_goal c) (call_audience c)
                   (call_niche c) (call_tone c) (call_cta c) w).2) w calls.

Lemma run_system_prefix py_repr clock goal audience niche tone cta w :
  work_log (stored w)
    `prefix_of` work_log (stored (run_system py_repr clock goal audience niche tone cta w).2)
  ∧ content_library (stored w)
    `prefix_of` content_library
                  (stored (run_system py_repr clock goal audience niche tone cta w).2).
Proof.
  pose proof (run_system_grown py_repr clock (work_log (stored w))
                (content_library (stored w)) goal audience niche tone cta w) as Hwp.
  unfold wp, grown, extends in Hwp.
  destruct (run_system py_repr clock goal audience niche tone cta w) as [[u|e] w'];
    by apply Hwp.
Qed.

(** C7. Over any sequence of runs, in any world and whether the runs return
    or raise, the work log and the content library in the memory file keep
    every entry they had at its position and only get entries appended. *)
Theorem logs_append_only
    (py_repr : value → string) (clock : nat → string)
    (calls : list call) (w : world) :
  ∃ new_entries new_assets,
    work_log (stored (run_calls py_repr clock calls w))
    = work_log (stored w) ++ new_entries
    ∧ content_library (stored (run_calls py_repr clock calls w))
      = content_library (stored w) ++ new_assets
    ∧ (length (work_log (stored w))
       ≤ length (work_log (stored (run_calls py_repr clock calls w))))%nat
    ∧ (length (content_library (stored w))
       ≤ length (content_library (stored (run_calls py_repr clock calls w))))%nat.
Proof.
  assert (Hprefix :
    work_log (stored w) `prefix_of` work_log (stored (run_calls py_repr clock calls w))
    ∧ content_library (stored w)
      `prefix_of` content_library (stored (run_calls py_repr clock calls w))).
  { revert w. induction calls as [|c calls IH]; intros w; [done |].
    unfold run_calls. cbn [foldl]. fold (run_calls py_repr clock calls).
    destruct (run_system_prefix py_repr clock (call_goal c) (call_audience c)
                (call_niche c) (call_tone c) (call_cta c) w) as [Hwl Hcl].
    destruct (IH (run_system py_repr clock (call_goal c) (call_audience c)
                    (call_niche c) (call_tone c) (call_cta c) w).2) as [Hwl' Hcl'].
    split; by etrans. }
  destruct Hprefix as [[new_entries Hwl] [new_assets Hcl]].
  exists new_entries, new_assets. rewrite Hwl, Hcl, !length_app.
  repeat split; lia.
Qed.

(** ** C9: the topic lookup of the draft steps is in range *)

(** C9. The topic tool returns five topics for all arguments; the index a
    draft step uses is below five, so the lookup in the tool's output
    succeeds; and no run, in any world, raises [IndexError]. *)
Theorem topic_lookup_never_out_of_range
    (py_repr : value → string) (clock : nat → string) :
  (∀ goal audience tone,
     ∃ topics, tool_generate_topics py_repr goal audience tone = VList topics
               ∧ length topics = 5)
  ∧ (∀ task_id, (topic_index task_id < 5)%nat)
  ∧ (∀ goal audience tone task_id,
       ∃ topic, py_index (tool_generate_topics py_repr goal audience tone)
                  (topic_index task_id) = Ok topic)
  ∧ (∀ content_goal audience niche tone cta w,
       (run_system py_repr clock content_goal audience niche tone cta w).1
       ≠ Raise IndexError).
Proof.
  split; [apply tool_generate_topics_length |].
  split; [intros task_id; pose proof (topic_index_bound task_id); lia |].
  split.
  - intros goal audience tone task_id.
    destruct (tool_generate_topics_length py_repr goal audience tone)
      as (topics & -> & Hlen).
    by apply topic_lookup_in_range.
  - intros content_goal audience niche tone cta w.
    pose proof (run_system_in_range py_repr clock content_goal audience niche
                  tone cta w) as Hwp.
    unfold wp, not_index_error in Hwp.
    destruct (run_system py_repr clock content_goal audience niche tone cta w)
      as [[u|e] w']; [done |]. cbn [fst]. by intros [= ->].
Qed.

(** ** Facts about the plan of a run *)

Lemma plan_length rk steps ct topics :
  length (plan rk steps ct topics) = length steps.
Proof.
  revert ct topics. induction steps as [|st steps IH]; intros ct topics;
    cbn [plan length]; [done | by rewrite IH].
Qed.

Lemma is_done_app rk st l1 l2 :
  is_done rk st (l1 ++ l2) = is_done rk st l1 || is_done rk st l2.
Proof. unfold is_done. apply existsb_app. Qed.

Lemma is_done_keys rk st steps :
  st ∈ steps → is_done rk st ((λ st, VStr (key_of rk st)) <$> steps) = true.
Proof.
  intros Hst. unfold is_done. apply existsb_exists.
  exists (VStr (key_of rk st)). split.
  - apply list_elem_of_In, list_elem_of_fmap. by exists st.
  - apply String.eqb_refl.
Qed.

(** With every completion key present, every step is skipped. *)
Lemma plan_all_done rk steps ct topics :
  (∀ st, st ∈ steps → is_done rk st ct = true) →
  plan rk steps ct topics = replicate (length steps) Skipped.
Proof.
  revert ct topics. induction steps as [|st steps IH]; intros ct topics Hdone;
    cbn [plan length replicate]; [done |].
  unfold kind_of at 1 2 3. rewrite Hdone by set_solver. cbn [done_after topics_after].
  rewrite IH; [done |]. intros st' Hst'. apply Hdone. set_solver.
Qed.

Lemma completed_steps_skipped steps :
  completed_steps steps (replicate (length steps) Skipped) = [].
Proof. induction steps as [|st steps IH]; [done | exact IH]. Qed.

Lemma completed_steps_completed steps :
  completed_steps steps (replicate (length steps) Completed) = steps.
Proof. induction steps as [|st steps IH]; [done |]. cbn. by rewrite IH. Qed.

Lemma status_name_inj k k' : status_name k = status_name k' → k = k'.
Proof. by destruct k, k'. Qed.

(** Statuses that are all [completed] come from steps that all complete. *)
Lemma all_completed ks n :
  (λ k, Some (status_name k)) <$> ks = replicate n (Some "completed") →
  ks = replicate n Completed.
Proof.
  revert n. induction ks as [|k ks IH]; intros [|n]; try done.
  rewrite fmap_cons. cbn [replicate]. intros [= Hk Hks].
  f_equal; [by apply (status_name_inj k Completed) | by apply IH].
Qed.

(** *** Completed entries of a log *)

Definition is_completed (e : value) : bool :=
  match status_of e with
  | Some s => String.eqb s "completed"
  | None => false
  end.

(** The completion key of the step a log entry is for. *)
Definition key_for (rk : string) (e : value) : value :=
  VStr (completed_key rk (default "" (task_of e))).

(** ** C10: assets, completed entries and completion keys go together *)

(** *** The three effects of a completed step stay together *)

(** Decides the equalities of string literals in the goal. *)
Ltac decide_strings :=
  repeat match goal with
  | |- context [decide (?a = ?b)] =>
      first [ rewrite (decide_True (P := a = b)) by reflexivity
            | rewrite (decide_False (P := a = b)) by discriminate ]
  end.

Section Tally.

Variable py_repr : value → string.
Variable clock : nat → string.
(** The work log, the content library and the completion keys at the start
    of the run, and the run key. *)
Variables wl0 cl0 ct0 : list value.
Variable rk : string.

(** What the memory dictionary [m] has more than the lists of the start:
    log entries, and for each completed one of them, in order, an asset of
    the entry's step and the completion key of the entry's step. *)
Definition tally (m : gmap string value) : Prop :=
  ∃ entries assets keys,
    work_log m = wl0 ++ entries
    ∧ content_library m = cl0 ++ assets
    ∧ completed_tasks m = ct0 ++ keys
    ∧ asset_type_of <$> assets = task_of <$> List.filter is_completed entries
    ∧ keys = key_for rk <$> List.filter is_completed entries.

(** The same of the dictionary in the memory file. *)
Definition tallied (w : world) : Prop := tally (stored w).

(** The completion keys of the memory dictionary are a list. *)
Definition keys_listed (m : gmap string value) : Prop :=
  ∃ l, m !! "completed_tasks" = Some (VList l).

Lemma tallied_fs w w' : fs w' = fs w → tallied w → tallied w'.
Proof. unfold tallied, stored. by intros ->. Qed.

Lemma tally_setdefault k m : tally m → tally (setdefault k (VList []) m).
Proof.
  unfold tally, work_log, content_library, completed_tasks.
  by rewrite !field_list_setdefault.
Qed.

(** An entry that is not a completed one adds to the log only. *)
Lemma tally_logged e m m' :
  append_field "work_log" e m = Ok m' → is_completed e = false →
  tally m → tally m'.
Proof.
  intros Happ He (entries & assets & keys & Hwl & Hcl & Hct & Htypes & Hkeys).
  exists (entries ++ [e]), assets, keys.
  unfold work_log, content_library, completed_tasks in *.
  rewrite !(append_field_fields _ _ _ _ Happ). decide_strings.
  rewrite Hwl, List.filter_app. cbn [List.filter]. rewrite He, app_nil_r.
  by rewrite app_assoc.
Qed.

(** The asset, the completed entry and the completion key of a step add one
    to each of the three lists. *)
Lemma tally_completed task a e m m1 m2 m3 :
  append_field "content_library" a m = Ok m1 →
  append_field "work_log" e m1 = Ok m2 →
  append_field "completed_tasks" (VStr (completed_key rk task)) m2 = Ok m3 →
  asset_type_of a = Some task → task_of e = Some task → is_completed e = true →
  tally m → tally m3.
Proof.
  intros Hm1 Hm2 Hm3 Ha Htask He
    (entries & assets & keys & Hwl & Hcl & Hct & Htypes & Hkeys).
  exists (entries ++ [e]), (assets ++ [a]), (keys ++ [VStr (completed_key rk task)]).
  unfold work_log, content_library, completed_tasks in *.
  rewrite !(append_field_fields _ _ _ _ Hm3). decide_strings.
  rewrite !(append_field_fields _ _ _ _ Hm2). decide_strings.
  rewrite !(append_field_fields _ _ _ _ Hm1). decide_strings.
  rewrite Hwl, Hcl, Hct, List.filter_app. cbn [List.filter]. rewrite He.
  rewrite !fmap_app, !app_assoc, Htypes, <- Hkeys. cbn [fmap list_fmap].
  unfold key_for. by rewrite Ha, Htask.
Qed.

Lemma keys_listed_setdefault k m :
  keys_listed m → keys_listed (setdefault k (VList []) m).
Proof.
  intros [l Hl]. exists l. rewrite lookup_setdefault.
  case_decide; [subst; by rewrite Hl | done].
Qed.

Lemma keys_listed_append k x m m' :
  append_field k x m = Ok m' → k ≠ "completed_tasks" →
  keys_listed m → keys_listed m'.
Proof.
  intros [_ ->]%append_field_Ok Hk [l Hl]. exists l.
  by rewrite lookup_insert_ne.
Qed.

Lemma keys_listed_mark task m :
  keys_listed m →
  ∃ m', append_field "completed_tasks" (VStr (completed_key rk task)) m = Ok m'
        ∧ keys_listed m'.
Proof.
  intros [l Hl]. unfold append_field, field_append. cbn [py_getitem].
  rewrite Hl. eexists. split; [reflexivity |].
  eexists. by rewrite lookup_insert_eq.
Qed.

Lemma should_skip_listed task m :
  keys_listed m → ∃ b, should_skip task m rk = Ok b.
Proof.
  intros [l Hl]. unfold should_skip. cbn [py_getitem]. rewrite Hl. by eexists.
Qed.

(** What [load_memory] does in any world: it raises, or it returns a
    memory with the lists of the file, whose completion keys are a list when
    those of the file are. *)
Lemma load_memory_lists w :
  (∀ v, stored w !! "completed_tasks" = Some v → ∃ l, v = VList l) →
  (∃ e, load_memory w = (Raise e, w))
  ∨ (∃ m, load_memory w = (Ok m, w)
       ∧ (∀ k, field_list k m = field_list k (stored w))
       ∧ keys_listed m).
Proof.
  intros Hkeys.
  assert (Hrecord : ∀ d, (fs w = None ∧ d = ∅) ∨ fs w = Some (Document (VDict d)) →
            stored w = d →
            ∃ m, load_memory w = (Ok m, w)
              ∧ (∀ k, field_list k m = field_list k (stored w))
              ∧ keys_listed m).
  { intros d Hd Hstored.
    destruct (load_memory_record w d Hd) as (m & Hm & Habsent & Hkept & Hother).
    exists m. split; [done |]. rewrite Hstored in *. split.
    - intros k. unfold field_list. destruct (d !! k) as [x|] eqn:Hx.
      + by rewrite (Hkept _ _ Hx).
      + destruct (decide (k ∈ memory_fields)) as [Hk | Hk].
        * by rewrite (Habsent k Hk Hx).
        * by rewrite (Hother k Hk), Hx.
    - destruct (d !! "completed_tasks") as [x|] eqn:Hx.
      + destruct (Hkeys x eq_refl) as [l ->]. exists l. by apply Hkept.
      + exists []. by apply Habsent; [apply in_memory_fields_ct |]. }
  destruct w as [[[|v]|] out n st].
  - left. by eexists.
  - destruct v; try (left; by eexists).
    right. by apply (Hrecord d); [right |].
  - right. by apply (Hrecord ∅); [left |].
Qed.

Lemma load_memory_tallied w :
  (∀ v, stored w !! "completed_tasks" = Some v → ∃ l, v = VList l) →
  tallied w →
  wp load_memory (λ m w', tallied w' ∧ tally m ∧ keys_listed m) (λ _ w', tallied w') w.
Proof.
  intros Hkeys Hw. unfold wp.
  destruct (load_memory_lists w Hkeys) as [[e ->] | (m & -> & Hlists & Hk)]; [done |].
  split; [done |]. split; [| done].
  unfold tally, work_log, content_library, completed_tasks. by rewrite !Hlists.
Qed.

Lemma log_event_tallied m e w :
  is_completed e = false →
  tally m → keys_listed m → tallied w →
  wp (log_event m e) (λ m' w', tallied w' ∧ tally m' ∧ keys_listed m')
     (λ _ w', tallied w') w.
Proof.
  intros He Hm Hk Hw. unfold log_event. wp_go; [| done].
  unfold tallied. autorewrite with world.
  split; [by eapply tally_logged |]. split; [by eapply tally_logged |].
  by eapply keys_listed_append.
Qed.

Definition resolved_tally (r : resolution) : Prop :=
  match r with
  | Continue m => tally m ∧ keys_listed m
  | Call _ => True
  end.

Lemma clarify_step_tallied task q m w :
  tally m → keys_listed m → tallied w →
  wp (clarify_step py_repr clock task q m)
     (λ r w', tallied w' ∧ resolved_tally r) (λ _ w', tallied w') w.
Proof.
  intros Hm Hk Hw. unfold clarify_step. wp_go.
  eapply wp_mono;
    [apply log_event_tallied; [reflexivity | done | done | by eapply tallied_fs] | | done].
  intros m' w' (Hw' & Hm' & Hk'). wp_go. split; [by eapply tallied_fs | done].
Qed.

Section Run.

Variables content_goal audience niche tone cta : string.

Lemma build_args_tallied task tool_name m o w :
  tally m → keys_listed m → tallied w →
  wp (build_args py_repr clock content_goal audience niche tone cta task tool_name m o)
     (λ r w', tallied w' ∧ resolved_tally r) (λ _ w', tallied w') w.
Proof.
  intros Hm Hk Hw. unfold build_args.
  repeat case_match; wp_go; try done; by apply clarify_step_tallied.
Qed.

Lemma complete_step_tallied task tool_name args m o w :
  tally m → keys_listed m → tallied w →
  wp (complete_step py_repr clock content_goal rk task tool_name args m o)
     (λ s w', tallied w' ∧ tally s.1 ∧ keys_listed s.1) (λ _ w', tallied w') w.
Proof.
  intros Hm Hk Hw. unfold complete_step.
  rewrite wp_bind, wp_lift. destruct (call_tool py_repr tool_name args) as [result|?];
    [| done].
  rewrite wp_bind, wp_lift.
  destruct (field_append "content_library" m) as [append|?] eqn:Happ; [| done].
  rewrite wp_bind, wp_now_iso, wp_bind, wp_now_iso, wp_bind.
  match goal with
  | |- context [log_event (append ?a) ?e] =>
      pose proof (field_append_Ok _ _ _ Happ a) as Hm1;
      set (asset := a) in *; set (entry := e) in *
  end.
  unfold log_event at 1. rewrite wp_bind, wp_lift.
  destruct (append_field "work_log" entry (append asset)) as [m2|?] eqn:Hm2;
    [| by eapply tallied_fs].
  rewrite wp_bind, wp_save_memory, wp_ret.
  assert (Hk2 : keys_listed m2).
  { eapply keys_listed_append; [exact Hm2 | done |].
    by eapply keys_listed_append. }
  destruct (keys_listed_mark task m2 Hk2) as (m3 & Hm3 & Hk3).
  unfold mark_done. rewrite !wp_bind, wp_lift, Hm3.
  rewrite wp_bind, wp_save_memory, !wp_ret. cbn [fst].
  assert (Hm3' : tally m3).
  { eapply (tally_completed task asset entry); try done. }
  unfold tallied. by autorewrite with world.
Qed.

Lemma run_step_tallied st m o w :
  tally m → keys_listed m → tallied w →
  wp (run_step py_repr clock content_goal audience niche tone cta rk st (m, o))
     (λ s w', tallied w' ∧ tally s.1 ∧ keys_listed s.1) (λ _ w', tallied w') w.
Proof.
  intros Hm Hk Hw. unfold run_step.
  destruct (should_skip_listed (id st) m Hk) as [skip Hskip].
  rewrite wp_bind, wp_lift, Hskip. destruct skip.
  - wp_go.
    eapply wp_mono;
      [apply log_event_tallied; [reflexivity | done | done | by eapply tallied_fs]
      | | done].
    intros m' w' (Hw' & Hm' & Hk'). by wp_go.
  - rewrite wp_bind. eapply wp_mono; [by apply build_args_tallied | | done].
    intros [m'|args] w' [Hw' Hr]; cbn [resolved_tally] in Hr.
    + by wp_go.
    + by apply complete_step_tallied.
Qed.

Lemma run_steps_tallied steps s w :
  tally s.1 → keys_listed s.1 → tallied w →
  wp (run_steps py_repr clock content_goal audience niche tone cta rk steps s)
     (λ s' w', tallied w' ∧ tally s'.1 ∧ keys_listed s'.1) (λ _ w', tallied w') w.
Proof.
  revert s w. induction steps as [|st steps IH]; intros [m o] w Hm Hk Hw;
    cbn [run_steps].
  - by wp_go.
  - wp_go. eapply wp_mono; [by apply run_step_tallied | | done].
    intros s' w' (Hw' & Hs' & Hk'). by apply IH.
Qed.

End Run.

End Tally.

(** A run on a store whose completion keys, where the file has them, are a
    list keeps the three effects of a completed step together, whether it
    returns or raises. *)
Lemma run_system_tallied py_repr clock content_goal audience niche tone cta
    wl0 cl0 ct0 w :
  (∀ v, stored w !! "completed_tasks" = Some v → ∃ l, v = VList l) →
  tallied wl0 cl0 ct0 (run_key_of content_goal) w →
  wp (run_system py_repr clock content_goal audience niche tone cta)
     (λ _ w', tallied wl0 cl0 ct0 (run_key_of content_goal) w')
     (λ _ w', tallied wl0 cl0 ct0 (run_key_of content_goal) w') w.
Proof.
  intros Hkeys Hw. unfold run_system. wp_go.
  eapply wp_mono;
    [apply (load_memory_tallied wl0 cl0 ct0 (run_key_of content_goal));
       [exact Hkeys | by eapply tallied_fs] | | done].
  intros m w1 (Hw1 & Hm & Hk). wp_go. case_match.
  - wp_go.
    eapply wp_mono;
      [apply log_event_tallied; [reflexivity | done | done | by eapply tallied_fs]
      | | done].
    intros m' w2 (Hw2 & Hm' & Hk'). wp_go.
    eapply wp_mono;
      [apply (print_memory_report_keeps_file py_repr (fs w2)); reflexivity | |];
      intros ? w3 Hw3; by apply (tallied_fs _ _ _ _ w2).
  - wp_go.
    eapply wp_mono;
      [apply run_steps_tallied; [done | done | by eapply tallied_fs] | | done].
    intros [m' o] w2 (Hw2 & Hm' & Hk'). wp_go.
    eapply wp_mono;
      [apply (print_deliverables_keeps_file py_repr (fs w2)); reflexivity | |];
      [| intros ? w3 Hw3; by apply (tallied_fs _ _ _ _ w2)].
    intros u w3 Hw3. wp_go.
    eapply wp_mono;
      [apply (print_memory_report_keeps_file py_repr (fs w2)); exact Hw3 | |];
      [| intros ? w4 Hw4; by apply (tallied_fs _ _ _ _ w2)].
    intros u' w4 Hw4. wp_go. by apply (tallied_fs _ _ _ _ w2).
Qed.

(** C10 (as amended). Take any run on a store whose [completed_tasks],
    where the memory file has it, is a list, whether the run returns or
    raises.  What the run appends to the work log, to the content library
    and to the completion keys is such that each completed entry, in order,
    has its asset (of the entry's step) and its completion key; so there are
    as many new assets and as many new keys as there are new completed
    entries. *)
Theorem completed_steps_are_counted
    (py_repr : value → string) (clock : nat → string)
    (content_goal audience niche tone cta : string) (w : world) :
  (∀ v, stored w !! "completed_tasks" = Some v → ∃ l, v = VList l) →
  ∃ entries assets keys,
    let w' := (run_system py_repr clock content_goal audience niche tone cta w).2 in
    work_log (stored w') = work_log (stored w) ++ entries
    ∧ content_library (stored w') = content_library (stored w) ++ assets
    ∧ completed_tasks (stored w') = completed_tasks (stored w) ++ keys
    ∧ asset_type_of <$> assets = task_of <$> List.filter is_completed entries
    ∧ keys = key_for (run_key_of content_goal) <$> List.filter is_completed entries
    ∧ length assets = length (List.filter is_completed entries)
    ∧ length keys = length (List.filter is_completed entries).
Proof.
  intros Hkeys.
  pose proof (run_system_tallied py_repr clock content_goal audience niche tone cta
                (work_log (stored w)) (content_library (stored w))
                (completed_tasks (stored w)) w Hkeys) as Hwp.
  assert (Hrun : tallied (work_log (stored w)) (content_library (stored w))
                   (completed_tasks (stored w)) (run_key_of content_goal)
                   (run_system py_repr clock content_goal audience niche tone cta w).2).
  { unfold wp in Hwp.
    destruct (run_system py_repr clock content_goal audience niche tone cta w)
      as [[u|e] w']; apply Hwp; exists [], [], []; by rewrite !app_nil_r. }
  destruct Hrun as (entries & assets & keys & Hwl & Hcl & Hct & Htypes & Hk).
  exists entries, assets, keys. cbv zeta.
  split; [done |]. split; [done |]. split; [done |]. split; [done |].
  split; [done |]. split.
  - by rewrite <- (length_fmap asset_type_of), Htypes, length_fmap.
  - by rewrite Hk, length_fmap.
Qed.

(** The claim as stated, for the run that leads from [w] to [w']: the
    number of assets appended, the number of completed entries appended and
    the number of completion keys added are equal. *)
Definition counted (w w' : world) : Prop :=
  let completed :=
    List.filter is_completed
      (drop (length (work_log (stored w))) (work_log (stored w'))) in
  (length (content_library (stored w')) - length (content_library (stored w))
   = length completed)%nat
  ∧ (length (completed_tasks (stored w')) - length (completed_tasks (stored w))
     = length completed)%nat.

(** A memory file whose [completed_tasks] is a record and not a list. *)
Definition keys_record : world :=
  World (Some (Document (VDict {[ "completed_tasks" := VDict ∅ ]}))) [] 0 "idle".

(** The claim as stated fails on a memory file whose [completed_tasks] is a
    record: the topics step is not skipped, its asset and its completed
    entry are saved, and then marking it done raises, so the run leaves one
    asset and one completed entry and no completion key. *)
Lemma keys_record_splits_the_count :
  let run := run_system (λ _, "") (λ _, "") "Grow my newsletter" "" "" "" ""
               keys_record in
  run.1 = Raise AttributeError
  ∧ asset_type_of <$> content_library (stored run.2) = [Some "topics"]
  ∧ status_of <$> work_log (stored run.2) = [Some "completed"]
  ∧ completed_tasks (stored run.2) = []
  ∧ ¬ counted keys_record run.2.
Proof.
  cbv zeta. split; [by vm_compute |]. split; [by vm_compute |].
  split; [by vm_compute |]. split; [by vm_compute |].
  intros [_ Hkeys]. vm_compute in Hkeys. discriminate Hkeys.
Qed.

(** ** C2: a second run with the same goal *)

Definition workflow_ids : list string :=
  ["topics"; "post_1"; "post_2"; "post_3"; "hashtags"; "schedule"].

(** C2. Take a run on a persistent memory whose six log entries are all
    [completed].  A second run with the same goal (and any other arguments)
    returns after logging six [skipped] entries, one per step; it appends no
    asset and leaves the completion keys as they are. *)
Theorem second_run_skips_everything
    (py_repr : value → string) (clock : nat → string)
    (content_goal audience niche tone cta audience' niche' tone' cta' : string)
    (w0 w1 : world) (entries : list value) :
  store_ok w0 →
  run_system py_repr clock content_goal audience niche tone cta w0 = (Ok (), w1) →
  work_log (stored w1) = work_log (stored w0) ++ entries →
  status_of <$> entries = replicate 6 (Some "completed") →
  ∃ w2 entries',
    run_system py_repr clock content_goal audience' niche' tone' cta' w1 = (Ok (), w2)
    ∧ work_log (stored w2) = work_log (stored w1) ++ entries'
    ∧ task_of <$> entries' = Some <$> workflow_ids
    ∧ status_of <$> entries' = replicate 6 (Some "skipped")
    ∧ content_library (stored w2) = content_library (stored w1)
    ∧ completed_tasks (stored w2) = completed_tasks (stored w1).
Proof.
  intros Hw0 Hrun1 Hlog1 Hall.
  destruct (nonempty (strip content_goal)) eqn:Hgoal.
  - (* the first run: every step completed, so every key was added *)
    destruct (run_system_typed py_repr clock content_goal audience niche tone cta w0)
      as (w1' & Hrun1' & Hw1 & entries1 & assets1 & _ & _ & Hstatuses1 & _
          & _ & _ & Hct1 & Hwl1 & _); [done | done |].
    rewrite Hrun1 in Hrun1'. injection Hrun1' as <-.
    rewrite Hlog1 in Hwl1. apply app_inv_head in Hwl1. subst entries1.
    rewrite Hall in Hstatuses1. symmetry in Hstatuses1.
    pose proof (f_equal length Hstatuses1) as Hlen.
    rewrite length_fmap, plan_length in Hlen. cbn in Hlen.
    apply all_completed in Hstatuses1. rewrite Hstatuses1 in Hct1.
    change 6 with (length workflow) in Hct1.
    rewrite completed_steps_completed in Hct1.
    (* the second run *)
    destruct (run_system_typed py_repr clock content_goal audience' niche' tone'
                cta' w1)
      as (w2 & Hrun2 & _ & entries2 & assets2 & _ & Htasks2 & Hstatuses2 & Htypes2
          & _ & _ & Hct2 & Hwl2 & Hcl2); [done | done |].
    rewrite plan_all_done in Hstatuses2, Htypes2, Hct2.
    2-4: intros st Hst; rewrite Hct1, is_done_app, (is_done_keys _ _ _ Hst);
      apply orb_true_r.
    rewrite completed_steps_skipped in Htypes2, Hct2.
    destruct assets2; [| done]. rewrite app_nil_r in Hct2, Hcl2.
    by exists w2, entries2.
  - (* a blank goal logs one clarify entry, not six completed ones *)
    destruct (run_system_blank py_repr clock content_goal audience niche tone cta w0)
      as (w1' & e & Hrun1' & _ & _ & _ & Hwl1 & _); [done | done |].
    rewrite Hrun1 in Hrun1'. injection Hrun1' as <-.
    rewrite Hlog1 in Hwl1. apply app_inv_head in Hwl1. by subst entries.
Qed.

(** ** C3: steps that depend on the topics *)

(** The completion key of the step [task] for the run key [rk] is among the
    keys [ct]; on a well-typed memory this is what [should_skip] returns. *)
Definition marked (rk task : string) (ct : list value) : bool :=
  existsb (is_str (completed_key rk task)) ct.

Lemma string_app_inv_l (s a b : string) : s +:+ a = s +:+ b → a = b.
Proof. induction s as [|c s IH]; [done |]. intros [= H]. by apply IH. Qed.

Lemma completed_key_inj rk a b : completed_key rk a = completed_key rk b → a = b.
Proof. unfold completed_key. by intros H%string_app_inv_l%string_app_inv_l. Qed.

Lemma marked_app_other rk task task' ct :
  task' ≠ task →
  marked rk task (ct ++ [VStr (completed_key rk task')]) = marked rk task ct.
Proof.
  intros Hne. unfold marked. rewrite existsb_app. cbn [existsb is_str].
  destruct (String.eqb_spec (completed_key rk task') (completed_key rk task))
    as [Heq%completed_key_inj | _]; [done |].
  by rewrite !orb_false_r.
Qed.

(** The status of a step that needs the topics, in a run without them. *)
Definition dependent_status (rk task : string) (ct : list value) : string :=
  if marked rk task ct then "skipped" else "clarify".

(** The plan of a run whose topics step is skipped. *)
Lemma plan_without_topics rk ct :
  marked rk "topics" ct = true →
  (λ k, Some (status_name k)) <$> plan rk workflow ct false
  = Some <$> [ "skipped"; dependent_status rk "post_1" ct;
               dependent_status rk "post_2" ct; dependent_status rk "post_3" ct;
               (if marked rk "hashtags" ct then "skipped" else "completed");
               dependent_status rk "schedule" ct ]
  ∧ completed_steps workflow (plan rk workflow ct false)
    = if marked rk "hashtags" ct then [] else [Step "hashtags" "hashtags"].
Proof.
  intros Htopics. unfold dependent_status.
  cbn [plan workflow]. unfold kind_of, is_done, key_of, needs_topics.
  cbn [id tool]. simpl String.eqb. cbv iota. cbn [orb andb].
  repeat match goal with
  | |- context [existsb (is_str (completed_key rk ?t)) ?l] =>
      change (existsb (is_str (completed_key rk t)) l) with (marked rk t l)
  end.
  rewrite Htopics. cbn [done_after topics_after negb].
  destruct (marked rk "post_1" ct); cbn [done_after topics_after negb];
  destruct (marked rk "post_2" ct); cbn [done_after topics_after negb];
  destruct (marked rk "post_3" ct); cbn [done_after topics_after negb];
  destruct (marked rk "hashtags" ct); cbn [done_after topics_after negb];
  simpl String.eqb; cbn [orb negb]; unfold key_of; cbn [id];
  rewrite ?marked_app_other by done;
  destruct (marked rk "schedule" ct); done.
Qed.

(** C3 (as amended). Take a run with a non-blank goal on a persistent memory
    in which the topics step is already marked done, so that it is skipped
    and the outputs have no topics.  The run returns after logging one entry
    per step.  Each of the three draft steps and the schedule step logs
    [clarify], unless its own completion key is present, in which case it
    logs [skipped] like any completed step; either way it appends no asset
    and adds no completion key: the only asset and the only key the run can
    add are those of the hashtags step. *)
Theorem dependents_clarify_unless_done
    (py_repr : value → string) (clock : nat → string)
    (content_goal audience niche tone cta : string) (w : world) :
  let rk := run_key_of content_goal in
  let ct := completed_tasks (stored w) in
  store_ok w → blank content_goal = false →
  marked rk "topics" ct = true →
  ∃ w' entries assets,
    run_system py_repr clock content_goal audience niche tone cta w = (Ok (), w')
    ∧ work_log (stored w') = work_log (stored w) ++ entries
    ∧ task_of <$> entries = Some <$> workflow_ids
    ∧ status_of <$> entries
      = Some <$> [ "skipped"; dependent_status rk "post_1" ct;
                   dependent_status rk "post_2" ct; dependent_status rk "post_3" ct;
                   (if marked rk "hashtags" ct then "skipped" else "completed");
                   dependent_status rk "schedule" ct ]
    ∧ content_library (stored w') = content_library (stored w) ++ assets
    ∧ asset_type_of <$> assets
      = (if marked rk "hashtags" ct then [] else [Some "hashtags"])
    ∧ completed_tasks (stored w')
      = ct ++ (if marked rk "hashtags" ct then []
               else [VStr (completed_key rk "hashtags")]).
Proof.
  intros rk ct Hw Hgoal Htopics.
  destruct (run_system_typed py_repr clock content_goal audience niche tone cta w)
    as (w' & Hrun & _ & entries & assets & _ & Htasks & Hstatuses & Htypes
        & _ & _ & Hct & Hwl & Hcl); [done | by rewrite nonempty_strip, Hgoal |].
  destruct (plan_without_topics rk ct Htopics) as [Hplan Hdone].
  fold rk ct in Hstatuses, Htypes, Hct.
  rewrite Hplan in Hstatuses. rewrite Hdone in Htypes, Hct.
  exists w', entries, assets.
  split; [done |]. split; [done |]. split; [done |]. split; [done |].
  split; [done |]. by destruct (marked rk "hashtags" ct).
Qed.

(** The claim as stated, for the run that leads from [w] to [w']: every
    entry the run logs for a draft step or for the schedule step has status
    [clarify]. *)
Definition dependents_clarified (w w' : world) : Prop :=
  ∀ e, e ∈ drop (length (work_log (stored w))) (work_log (stored w')) →
       task_of e ∈ [Some "post_1"; Some "post_2"; Some "post_3"; Some "schedule"] →
       status_of e = Some "clarify".

(** The claim as stated fails on the second of two runs with the same goal:
    the topics step is skipped, and so are the draft steps, which log
    [skipped] and not [clarify]. *)
Lemma skipped_dependents_do_not_clarify :
  let w1 := (run_system (λ _, "") (λ _, "") "Grow my newsletter" "" "" "" "" fresh).2 in
  let w2 := (run_system (λ _, "") (λ _, "") "Grow my newsletter" "" "" "" "" w1).2 in
  marked (run_key_of "Grow my newsletter") "topics" (completed_tasks (stored w1)) = true
  ∧ ¬ dependents_clarified w1 w2.
Proof.
  cbv zeta. split; [by vm_compute |]. intros Hclaim.
  assert (∃ e, drop (length (work_log (stored
            (run_system (λ _, "") (λ _, "") "Grow my newsletter" "" "" "" "" fresh).2)))
              (work_log (stored
                (run_system (λ _, "") (λ _, "") "Grow my newsletter" "" "" "" ""
                   (run_system (λ _, "") (λ _, "") "Grow my newsletter" "" "" "" ""
                      fresh).2).2)) !! 1 = Some e
               ∧ task_of e = Some "post_1" ∧ status_of e = Some "skipped")
    as (e & He & Htask & Hstatus).
  { vm_compute. eexists. split; [reflexivity |]. split; reflexivity. }
  specialize (Hclaim e). rewrite Htask, Hstatus in Hclaim.
  discriminate Hclaim; [by eapply list_elem_of_lookup_2 | constructor].
Qed.

(** ** The theorems at concrete runs *)

(** A memory file that holds only completion keys. *)
Definition keys_only (keys : list string) : world :=
  World (Some (Document (VDict {[ "completed_tasks" := VList (VStr <$> keys) ]})))
    [] 0 "idle".

Lemma store_ok_keys_only keys : store_ok (keys_only keys).
Proof.
  split; [right; by eexists |]. split; [| by constructor].
  intros k v _ Hv. unfold stored, keys_only in Hv. cbn [fs] in Hv.
  apply lookup_singleton_Some in Hv as [_ <-]. by eexists.
Qed.

Lemma blank_goal_clarifies_witness :
  ∃ w' e,
    run_system (λ _, "") (λ _, "") "   " "" "" "" "" fresh = (Ok (), w')
    ∧ work_log (stored w') = [e] ∧ status_of e = Some "clarify".
Proof.
  destruct (blank_goal_clarifies (λ _, "") (λ _, "") "   " "" "" "" "" fresh
              (store_ok_fresh [] 0 "idle") eq_refl)
    as (w' & e & Hrun & Hwl & Hstatus & _).
  exists w', e. split; [exact Hrun |]. split; [exact Hwl | exact Hstatus].
Defined.

(** A memory file whose work log has an entry that is not a record: a run
    with a non-blank goal completes the six steps and then raises in the
    report. *)
Definition odd_log : world :=
  World (Some (Document (VDict {[ "work_log" := VList [VInt 3] ]}))) [] 0 "idle".

Lemma completed_steps_are_counted_witness :
  ∃ entries assets keys,
    let run := run_system (λ _, "") (λ _, "") "Grow my newsletter" "" "" "" ""
                 odd_log in
    run.1 = Raise AttributeError
    ∧ work_log (stored run.2) = VInt 3 :: entries
    ∧ content_library (stored run.2) = assets
    ∧ completed_tasks (stored run.2) = keys
    ∧ length assets = length (List.filter is_completed entries)
    ∧ length keys = length (List.filter is_completed entries).
Proof.
  assert (Hkeys : ∀ v, stored odd_log !! "completed_tasks" = Some v → ∃ l, v = VList l).
  { intros v Hv. vm_compute in Hv. discriminate Hv. }
  destruct (completed_steps_are_counted (λ _, "") (λ _, "") "Grow my newsletter"
              "" "" "" "" odd_log Hkeys)
    as (entries & assets & keys & Hwl & Hcl & Hct & _ & _ & Ha & Hk).
  exists entries, assets, keys. cbv zeta in *.
  split; [vm_compute; reflexivity |].
  split; [exact Hwl |]. split; [exact Hcl |]. split; [exact Hct |].
  split; [exact Ha | exact Hk].
Defined.

Lemma second_run_skips_everything_witness :
  ∃ w1 w2 entries',
    run_system (λ _, "") (λ _, "") "Grow my newsletter" "a" "AI" "t" "c" fresh
      = (Ok (), w1)
    ∧ run_system (λ _, "") (λ _, "") "Grow my newsletter" "b" "real estate" "u" "d" w1
      = (Ok (), w2)
    ∧ work_log (stored w2) = work_log (stored w1) ++ entries'
    ∧ status_of <$> entries' = replicate 6 (Some "skipped")
    ∧ content_library (stored w2) = content_library (stored w1)
    ∧ completed_tasks (stored w2) = completed_tasks (stored w1).
Proof.
  set (w1 := (run_system (λ _, "") (λ _, "") "Grow my newsletter" "a" "AI" "t" "c"
                fresh).2).
  assert (Hrun1 :
    run_system (λ _, "") (λ _, "") "Grow my newsletter" "a" "AI" "t" "c" fresh
    = (Ok (), w1)) by (vm_compute; reflexivity).
  assert (Hstatuses :
    status_of <$> work_log (stored w1) = replicate 6 (Some "completed"))
    by (vm_compute; reflexivity).
  destruct (second_run_skips_everything (λ _, "") (λ _, "") "Grow my newsletter"
              "a" "AI" "t" "c" "b" "real estate" "u" "d" fresh w1
              (work_log (stored w1)) (store_ok_fresh [] 0 "idle") Hrun1
              eq_refl Hstatuses)
    as (w2 & entries' & Hrun2 & Hwl & _ & Hskipped & Hcl & Hct).
  exists w1, w2, entries'.
  split; [exact Hrun1 |]. split; [exact Hrun2 |]. split; [exact Hwl |].
  split; [exact Hskipped |]. split; [exact Hcl | exact Hct].
Defined.

Lemma dependents_clarify_unless_done_witness :
  ∃ w' entries,
    run_system (λ _, "") (λ _, "") "Grow my newsletter" "" "" "" ""
      (keys_only ["run:grow my newsletter:topics"; "run:grow my newsletter:post_2"])
    = (Ok (), w')
    ∧ work_log (stored w') = entries
    ∧ status_of <$> entries
      = Some <$> ["skipped"; "clarify"; "skipped"; "clarify"; "completed"; "clarify"]
    ∧ asset_type_of <$> content_library (stored w') = [Some "hashtags"].
Proof.
  assert (Hblank : blank "Grow my newsletter" = false) by (vm_compute; reflexivity).
  assert (Hmarked :
    marked (run_key_of "Grow my newsletter") "topics"
      (completed_tasks (stored
         (keys_only ["run:grow my newsletter:topics";
                     "run:grow my newsletter:post_2"]))) = true)
    by (vm_compute; reflexivity).
  destruct (dependents_clarify_unless_done (λ _, "") (λ _, "") "Grow my newsletter"
              "" "" "" ""
              (keys_only ["run:grow my newsletter:topics";
                          "run:grow my newsletter:post_2"])
              (store_ok_keys_only _) Hblank Hmarked)
    as (w' & entries & assets & Hrun & Hwl & _ & Hstatuses & Hcl & Htypes & _).
  exists w', entries. split; [exact Hrun |]. split; [exact Hwl |].
  split.
  - rewrite Hstatuses. vm_compute. reflexivity.
  - rewrite Hcl, fmap_app, Htypes. vm_compute. reflexivity.
Defined.

(** * Further properties of the program *)

(** ** The tools *)

Definition base_tags : list string :=
  ["#contentstrategy"; "#creator"; "#marketing"; "#smallbusiness"; "#consistency"].
Definition ai_tags : list string :=
  ["#ai"; "#aiautomation"; "#aigent"; "#promptengineering"; "#futureofwork"].
Definition real_estate_tags : list string :=
  ["#realestate"; "#realtor"; "#houstonrealestate"; "#investing"; "#homebuyers"].

(** X1. For a niche that is a string, [tool_hashtags] returns the five
    general tags, then the five AI tags when the lower-cased niche contains
    [ai], then the real-estate tags when it contains [real estate], cut to
    twelve tags: with both, only the first two real-estate tags are kept.
    For a niche that is not a string it raises [AttributeError]. *)
Theorem tool_hashtags_tags (niche : value) :
  match niche with
  | VStr s =>
      let ai := contains "ai" (lower s) in
      let re := contains "real estate" (lower s) in
      ∃ tags,
        tool_hashtags niche = Ok (VList (VStr <$> tags))
        ∧ tags = take 12 (base_tags ++ (if ai then ai_tags else [])
                          ++ (if re then real_estate_tags else []))
        ∧ length tags
          = ((5 + (if ai then 5 else 0) + (if re then 5 else 0)) `min` 12)%nat
        ∧ take 5 tags = base_tags
        ∧ (if ai then take 5 (drop 5 tags) = ai_tags else True)
        ∧ (if ai && re then drop 10 tags = ["#realestate"; "#realtor"] else True)
  | _ => tool_hashtags niche = Raise AttributeError
  end.
Proof.
  destruct niche as [| | | |s| |]; try reflexivity. cbv zeta.
  unfold tool_hashtags.
  destruct (contains "ai" (lower s)), (contains "real estate" (lower s));
    eexists; (split; [reflexivity |]); repeat split.
Qed.

(** X2. For a list of topics, [tool_schedule] never raises and returns
    five entries, for Mon to Fri in this order; the entry of day [i] has the
    topic at position [i], or the bonus topic when the list is shorter.
    Topics after the fifth are left out. *)
Theorem tool_schedule_list (topics : list value) :
  tool_schedule (VList topics)
  = Ok (VList (imap (λ i day,
          VDict {[ "day" := VStr day;
                   "topic" := default (VStr "Bonus: behind the scenes")
                                (topics !! i) ]}) days)).
Proof.
  assert (Hentry : ∀ i day,
    schedule_entry (VList topics) i day
    = Ok (VDict {[ "day" := VStr day;
                   "topic" := default (VStr "Bonus: behind the scenes")
                                (topics !! i) ]})).
  { intros i day. unfold schedule_entry. cbn [py_len mbind outcome_bind py_index].
    case_bool_decide as Hi.
    - destruct (lookup_lt_is_Some_2 topics i Hi) as [x ->]. reflexivity.
    - rewrite lookup_ge_None_2 by lia. reflexivity. }
  unfold tool_schedule, days. cbn [imap mapM_outcome fst snd compose].
  rewrite !Hentry. reflexivity.
Qed.

(** ** The memory store *)

Lemma setdefault_present k v (d : gmap string value) :
  is_Some (d !! k) → setdefault k v d = d.
Proof. intros [x Hx]. unfold setdefault. by rewrite Hx. Qed.

Lemma setdefault_is_Some k k' v (d : gmap string value) :
  is_Some (d !! k') → is_Some (setdefault k v d !! k').
Proof.
  intros Hk'. unfold setdefault. destruct (d !! k) eqn:Hk; [done |].
  rewrite lookup_insert. by case_decide.
Qed.

Lemma setdefault_self k v (d : gmap string value) : is_Some (setdefault k v d !! k).
Proof.
  unfold setdefault. destruct (d !! k) eqn:Hk; [by rewrite Hk |].
  by rewrite lookup_insert_eq.
Qed.

(** What [load_memory] returns has the three fields. *)
Lemma load_memory_fields w w' m :
  load_memory w = (Ok m, w') →
  w' = w ∧ ∀ k, k ∈ memory_fields → is_Some (m !! k).
Proof.
  destruct w as [[[|[]]|] out n st]; try discriminate; intros [= <- <-];
    (split; [reflexivity |]); intros k Hk; unfold memory_fields in Hk;
    repeat (apply elem_of_cons in Hk as [-> | Hk]);
    try (by apply elem_of_nil in Hk);
    auto using setdefault_self, setdefault_is_Some.
Qed.

(** X3. Saving a memory and loading it back gives the same memory, for every
    memory that has the three fields; this is so of every memory
    [load_memory] returns, so that a loaded memory survives any number of
    save and load cycles unchanged.  The load leaves the file as saved. *)
Theorem save_load_round_trip (m : gmap string value) (w : world) :
  (∀ k, k ∈ memory_fields → is_Some (m !! k)) →
  load_memory (save_memory m w).2 = (Ok m, (save_memory m w).2)
  ∧ stored (save_memory m w).2 = m.
Proof.
  intros Hm. split; [| reflexivity].
  destruct w as [f out n st]. lazy -[setdefault]. do 2 f_equal.
  rewrite !setdefault_present; [done | ..];
    auto using setdefault_is_Some, in_memory_fields_ct, in_memory_fields_wl,
      in_memory_fields_cl.
Qed.

(** ** The skip guardrail *)

(** X4. After [mark_done] succeeds for a step and a run key, [should_skip]
    is true for them on the memory returned, which is the memory now in the
    file; for a step and run key with another completion key, [should_skip]
    answers as before.  [mark_done] succeeds exactly when [completed_tasks]
    is a list, and otherwise leaves the world as it is. *)
Theorem mark_done_then_skip (task rk : string) (m : gmap string value) (w : world) :
  match m !! "completed_tasks" with
  | Some (VList ct) =>
      ∃ m', mark_done task m rk w
            = (Ok m', set_fs (Some (Document (VDict m'))) w)
        ∧ completed_tasks m' = ct ++ [VStr (completed_key rk task)]
        ∧ should_skip task m' rk = Ok true
        ∧ ∀ task' rk', completed_key rk' task' ≠ completed_key rk task →
            should_skip task' m' rk' = should_skip task' m rk'
  | _ => ∃ e, mark_done task m rk w = (Raise e, w)
  end.
Proof.
  destruct (m !! "completed_tasks") as [v|] eqn:Hct;
    [destruct v as [| | | | |ct|] |];
    try (eexists; unfold mark_done, mbind, M_bind, lift, append_field, field_append;
         cbn; rewrite Hct; reflexivity).
  exists (<["completed_tasks" := VList (ct ++ [VStr (completed_key rk task)])]> m).
  split.
  { unfold mark_done, mbind, M_bind, lift, append_field, field_append.
    cbn. rewrite Hct. reflexivity. }
  split.
  { unfold completed_tasks. rewrite field_list_insert. by rewrite decide_True. }
  split.
  { unfold should_skip. cbn. rewrite lookup_insert_eq. cbn.
    rewrite existsb_app. cbn. by rewrite String.eqb_refl, orb_true_r. }
  intros task' rk' Hne. unfold should_skip. cbn.
  rewrite lookup_insert_eq, Hct. cbn. rewrite existsb_app. cbn.
  destruct (String.eqb_spec (completed_key rk task) (completed_key rk' task'));
    [congruence |]. by rewrite !orb_false_r.
Qed.

(** ** Completion keys *)

(** The string has no colon. *)
Definition no_colon (s : string) : bool :=
  forallb (λ c, negb (Ascii.eqb c ":")) (String.list_ascii_of_string s).

Lemma no_colon_app_colon s t : no_colon (s +:+ ":" +:+ t) = false.
Proof.
  induction s as [|c s IH]; [done |].
  change (no_colon (String c (s +:+ ":" +:+ t)) = false).
  unfold no_colon in *. cbn [String.list_ascii_of_string forallb].
  rewrite IH. apply andb_false_r.
Qed.

Lemma string_app_empty (t : string) : "" +:+ t = t.
Proof. reflexivity. Qed.

Lemma string_app_cons c (s t : string) : String c s +:+ t = String c (s +:+ t).
Proof. reflexivity. Qed.

Lemma completed_key_pair_inj rk1 rk2 t1 t2 :
  no_colon t1 = true → no_colon t2 = true →
  completed_key rk1 t1 = completed_key rk2 t2 → rk1 = rk2 ∧ t1 = t2.
Proof.
  unfold completed_key. intros H1 H2. revert rk2.
  induction rk1 as [|c rk1 IH]; intros [|c' rk2];
    repeat first [rewrite string_app_empty | rewrite string_app_cons].
  - by intros [= ->].
  - intros [= <- ->].
    by rewrite (no_colon_app_colon rk2 t2
                : no_colon (rk2 +:+ String ":" t2) = false) in H1.
  - intros [= -> <-].
    by rewrite (no_colon_app_colon rk1 t1
                : no_colon (rk1 +:+ String ":" t1) = false) in H2.
  - intros [= <- H]. destruct (IH _ H) as [-> ->]. done.
Qed.

(** X5. The completion keys of the workflow identify the run key and the
    step: for two steps of the workflow, different run keys or different
    step identifiers give different completion keys, whatever the run keys
    contain (colons included).  No goal can make a run skip a step on account
    of a key written for another goal or another step. *)
Theorem workflow_keys_are_distinct (rk1 rk2 : string) (st1 st2 : step) :
  st1 ∈ workflow → st2 ∈ workflow →
  rk1 ≠ rk2 ∨ id st1 ≠ id st2 →
  key_of rk1 st1 ≠ key_of rk2 st2.
Proof.
  intros H1 H2 Hne Heq.
  assert (rk1 = rk2 ∧ id st1 = id st2) as [Hrk Hid]; [| by destruct Hne].
  revert Heq. apply completed_key_pair_inj.
  - unfold workflow in H1.
    repeat (apply elem_of_cons in H1 as [-> | H1]); try reflexivity.
    by apply elem_of_nil in H1.
  - unfold workflow in H2.
    repeat (apply elem_of_cons in H2 as [-> | H2]); try reflexivity.
    by apply elem_of_nil in H2.
Qed.

(** ** Previews *)

(** [text[:stop]] for an integer [stop]: the first [stop] characters, or,
    for a negative [stop], all but the last [-stop] characters. *)
Definition py_slice_to (stop : Z) (s : string) : string :=
  if (0 <=? stop)%Z then String.substring 0 (Z.to_nat stop) s
  else String.substring 0 (String.length s - Z.to_nat (- stop)) s.

(** [truncate(text, limit)] for any integer [limit]. *)
Definition truncate_at (py_repr : value → string) (limit : Z) (text : value)
  : string :=
  let text := str_of py_repr text in
  if bool_decide (Z.of_nat (String.length text) ≤ limit)%Z then text
  else py_slice_to limit text +:+ "...(truncated)".

Lemma substring_app_prefix (n : nat) (s t : string) :
  (n ≤ String.length s)%nat →
  String.substring 0 n (String.substring 0 n s +:+ t) = String.substring 0 n s.
Proof.
  revert s. induction n as [|n IH]; intros s Hn.
  - by destruct s, t.
  - destruct s as [|c s]; cbn [String.length] in Hn; [lia |].
    cbn [String.substring]. change (String c ?a +:+ t) with (String c (a +:+ t)).
    cbn [String.substring]. f_equal. apply IH. lia.
Qed.

(** X6. [truncate] with any integer limit.  For a limit that is not
    negative it is [truncate_to]: the preview has at most [limit + 14]
    characters and has the first [limit] characters of the text of the
    value.  For a negative limit the text is never returned as it is: the
    preview is the text without its last [-limit] characters, followed by the
    marker, so it can be longer than [limit + 14]. *)
Theorem truncate_at_any_limit (py_repr : value → string) (limit : Z) (v : value) :
  let text := str_of py_repr v in
  let preview := truncate_at py_repr limit v in
  ((0 ≤ limit)%Z →
     preview = truncate_to py_repr (Z.to_nat limit) v
     ∧ (String.length preview ≤ Z.to_nat limit + 14)%nat
     ∧ String.substring 0 (Z.to_nat limit) preview
       = String.substring 0 (Z.to_nat limit) text)
  ∧ ((limit < 0)%Z →
     preview
     = String.substring 0 (String.length text - Z.to_nat (- limit)) text
       +:+ "...(truncated)"
     ∧ String.length preview
       = (String.length text - Z.to_nat (- limit) + 14)%nat).
Proof.
  cbv zeta. unfold truncate_at, truncate_to, py_slice_to. split; intros Hlimit.
  - rewrite (proj2 (Z.leb_le 0 limit)) by done.
    case_bool_decide as Hlen.
    + rewrite bool_decide_eq_true_2 by lia. split; [done |]. split; [lia | done].
    + rewrite bool_decide_eq_false_2 by lia. split; [done |]. split.
      * rewrite string_length_app, string_length_substring by lia. cbn. lia.
      * apply substring_app_prefix. lia.
  - rewrite bool_decide_eq_false_2 by lia.
    rewrite (proj2 (Z.leb_gt 0 limit)) by done. split; [done |].
    rewrite string_length_app, string_length_substring by lia. done.
Qed.

Lemma truncate_at_any_limit_witness :
  String.length (truncate_at (λ _, "") (-1) (VStr "hello")) = 18%nat
  ∧ truncate_at (λ _, "") 3 (VStr "hello") = "hel...(truncated)".
Proof.
  split.
  - exact (proj2 (proj2 (truncate_at_any_limit (λ _, "") (-1) (VStr "hello"))
                    eq_refl)).
  - assert (H : (0 ≤ 3)%Z) by lia.
    exact (proj1 (proj1 (truncate_at_any_limit (λ _, "") 3 (VStr "hello")) H)).
Defined.

(** ** Runs that complete every step *)

(** With no completion key of the run key present, every step completes. *)
Lemma plan_none_marked rk ct :
  (∀ task, task ∈ workflow_ids → marked rk task ct = false) →
  plan rk workflow ct false = replicate 6 Completed.
Proof.
  intros Hnone. unfold workflow_ids in Hnone.
  assert (H1 := Hnone "topics" ltac:(set_solver)).
  assert (H2 := Hnone "post_1" ltac:(set_solver)).
  assert (H3 := Hnone "post_2" ltac:(set_solver)).
  assert (H4 := Hnone "post_3" ltac:(set_solver)).
  assert (H5 := Hnone "hashtags" ltac:(set_solver)).
  assert (H6 := Hnone "schedule" ltac:(set_solver)).
  cbn [plan workflow]. unfold kind_of, is_done, key_of, needs_topics.
  cbn [id tool]. simpl String.eqb. cbv iota. cbn [orb andb].
  repeat match goal with
  | |- context [existsb (is_str (completed_key rk ?t)) ?l] =>
      change (existsb (is_str (completed_key rk t)) l) with (marked rk t l)
  end.
  rewrite H1. cbn [done_after topics_after negb orb]. unfold key_of; cbn [id].
  simpl String.eqb. cbn [orb negb andb].
  rewrite !marked_app_other by done. rewrite H2.
  cbn [done_after topics_after negb orb]. unfold key_of; cbn [id].
  rewrite !marked_app_other by done. rewrite H3.
  cbn [done_after topics_after negb orb]. unfold key_of; cbn [id].
  rewrite !marked_app_other by done. rewrite H4.
  cbn [done_after topics_after negb orb]. unfold key_of; cbn [id].
  rewrite !marked_app_other by done. rewrite H5.
  cbn [done_after topics_after negb orb]. unfold key_of; cbn [id].
  simpl String.eqb. cbn [orb negb andb].
  rewrite !marked_app_other by done. rewrite H6. reflexivity.
Qed.

(** X7. On a persistent memory that has none of the six completion keys of
    the goal's run key, a run with a non-blank goal returns after completing
    every step: six [completed] entries, six completion keys and six assets
    in the order of the workflow.  The assets hold what the tools return for
    the arguments of the run: the five topics of the goal, a draft on each of
    the first three topics, the tags of the niche and the schedule of the
    five topics. *)
Theorem unmarked_run_completes_all
    (py_repr : value → string) (clock : nat → string)
    (content_goal audience niche tone cta : string) (w : world) :
  store_ok w → blank content_goal = false →
  (∀ task, task ∈ workflow_ids →
     marked (run_key_of content_goal) task (completed_tasks (stored w)) = false) →
  ∃ w' entries assets topics t0 t1 t2 tags schedule,
    run_system py_repr clock content_goal audience niche tone cta w = (Ok (), w')
    ∧ work_log (stored w') = work_log (stored w) ++ entries
    ∧ task_of <$> entries = Some <$> workflow_ids
    ∧ status_of <$> entries = replicate 6 (Some "completed")
    ∧ completed_tasks (stored w')
      = completed_tasks (stored w)
        ++ ((λ task, VStr (completed_key (run_key_of content_goal) task))
            <$> workflow_ids)
    ∧ content_library (stored w') = content_library (stored w) ++ assets
    ∧ asset_type_of <$> assets = Some <$> workflow_ids
    ∧ topics = tool_generate_topics py_repr (VStr content_goal) (VStr audience)
                 (VStr tone)
    ∧ py_index topics 0 = Ok t0 ∧ py_index topics 1 = Ok t1
    ∧ py_index topics 2 = Ok t2
    ∧ tool_hashtags (VStr niche) = Ok tags
    ∧ tool_schedule topics = Ok schedule
    ∧ data_of <$> assets
      = [ Some topics;
          Some (tool_draft_post py_repr t0 (VStr audience) (VStr tone) (VStr cta));
          Some (tool_draft_post py_repr t1 (VStr audience) (VStr tone) (VStr cta));
          Some (tool_draft_post py_repr t2 (VStr audience) (VStr tone) (VStr cta));
          Some tags; Some schedule ].
Proof.
  intros Hw Hgoal Hnone.
  destruct (run_system_typed py_repr clock content_goal audience niche tone cta w)
    as (w' & Hrun & _ & entries & assets & _ & Htasks & Hstatuses & Htypes
        & Hdatas & _ & Hct & Hwl & Hcl); [done | by rewrite nonempty_strip, Hgoal |].
  rewrite (plan_none_marked _ _ Hnone) in Hstatuses, Htypes, Hdatas, Hct.
  change 6 with (length workflow) in Htypes, Hdatas, Hct.
  rewrite completed_steps_completed in Htypes, Hdatas, Hct.
  destruct (tool_hashtags_Ok niche) as [tags Htags].
  eexists w', entries, assets, _, _, _, _, _, _.
  split; [exact Hrun |]. split; [exact Hwl |]. split; [exact Htasks |].
  split; [exact Hstatuses |]. split; [exact Hct |]. split; [exact Hcl |].
  split; [exact Htypes |]. split; [reflexivity |].
  split; [reflexivity |]. split; [reflexivity |]. split; [reflexivity |].
  split; [exact Htags |]. split; [reflexivity |].
  rewrite Hdatas. cbn [workflow fmap list_fmap id].
  unfold expected_output. simpl String.eqb. cbv iota. rewrite Htags.
  reflexivity.
Qed.

(** ** Runs for different goals *)

Lemma workflow_no_colon st : st ∈ workflow → no_colon (id st) = true.
Proof.
  unfold workflow. intros H.
  repeat (apply elem_of_cons in H as [-> | H]); try reflexivity.
  by apply elem_of_nil in H.
Qed.

Lemma workflow_ids_no_colon task : task ∈ workflow_ids → no_colon task = true.
Proof.
  unfold workflow_ids. intros H.
  repeat (apply elem_of_cons in H as [-> | H]); try reflexivity.
  by apply elem_of_nil in H.
Qed.

Lemma completed_steps_subseteq steps ks : completed_steps steps ks ⊆ steps.
Proof.
  revert ks. induction steps as [|st steps IH]; intros [|[] ks];
    cbn [completed_steps]; try done; try apply list_subseteq_nil;
    specialize (IH ks).
  - by apply list_subseteq_cons.
  - by apply list_subseteq_cons.
  - by apply list_subseteq_skip.
Qed.

(** The completion keys of one run key mark no step for another. *)
Lemma marked_other_run rk rk' task (steps : list step) (ct : list value) :
  rk ≠ rk' → no_colon task = true → steps ⊆ workflow →
  marked rk task (ct ++ ((λ st, VStr (key_of rk' st)) <$> steps)) = marked rk task ct.
Proof.
  intros Hrk Htask Hsteps. unfold marked. rewrite existsb_app.
  assert (existsb (is_str (completed_key rk task))
            ((λ st, VStr (key_of rk' st)) <$> steps) = false) as ->;
    [| apply orb_false_r].
  induction steps as [|st steps IH]; [done |].
  rewrite fmap_cons. cbn [existsb is_str]. rewrite IH, orb_false_r by set_solver.
  unfold key_of.
  destruct (String.eqb_spec (completed_key rk' (id st)) (completed_key rk task))
    as [Heq | _]; [| done].
  apply completed_key_pair_inj in Heq as [-> _];
    [done | apply workflow_no_colon; set_solver | done].
Qed.

(** A run on a persistent memory returns, whatever its goal, and leaves a
    persistent memory in which the steps of every other run key are marked
    as before. *)
Lemma run_keeps_other_marks py_repr clock goal audience niche tone cta w :
  store_ok w →
  ∃ w', run_system py_repr clock goal audience niche tone cta w = (Ok (), w')
    ∧ store_ok w'
    ∧ ∀ rk task, rk ≠ run_key_of goal → no_colon task = true →
        marked rk task (completed_tasks (stored w'))
        = marked rk task (completed_tasks (stored w)).
Proof.
  intros Hw. destruct (nonempty (strip goal)) eqn:Hgoal.
  - destruct (run_system_typed py_repr clock goal audience niche tone cta w)
      as (w' & Hrun & Hw' & entries & assets & _ & _ & _ & _ & _ & _ & Hct & _);
      [done | done |].
    exists w'. split; [done |]. split; [done |]. intros rk task Hrk Htask.
    rewrite Hct. apply marked_other_run; [done | done |].
    apply completed_steps_subseteq.
  - destruct (run_system_blank py_repr clock goal audience niche tone cta w)
      as (w' & e & Hrun & Hw' & _ & _ & _ & Hct & _); [done | done |].
    exists w'. split; [done |]. split; [done |]. intros rk task _ _.
    by rewrite Hct.
Qed.

(** X8. Runs for goals with different run keys do not skip each other's
    steps.  On a persistent memory with none of the six completion keys of a
    non-blank goal, a run for any goal with another run key returns, and a run
    for the first goal after it still completes all six steps and adds their
    six completion keys. *)
Theorem other_goal_runs_in_full
    (py_repr : value → string) (clock : nat → string)
    (goal1 audience1 niche1 tone1 cta1 goal2 audience2 niche2 tone2 cta2 : string)
    (w : world) :
  store_ok w → blank goal2 = false →
  run_key_of goal1 ≠ run_key_of goal2 →
  (∀ task, task ∈ workflow_ids →
     marked (run_key_of goal2) task (completed_tasks (stored w)) = false) →
  ∃ w1 w2 entries,
    run_system py_repr clock goal1 audience1 niche1 tone1 cta1 w = (Ok (), w1)
    ∧ run_system py_repr clock goal2 audience2 niche2 tone2 cta2 w1 = (Ok (), w2)
    ∧ work_log (stored w2) = work_log (stored w1) ++ entries
    ∧ task_of <$> entries = Some <$> workflow_ids
    ∧ status_of <$> entries = replicate 6 (Some "completed")
    ∧ completed_tasks (stored w2)
      = completed_tasks (stored w1)
        ++ ((λ task, VStr (completed_key (run_key_of goal2) task)) <$> workflow_ids).
Proof.
  intros Hw Hgoal2 Hkeys Hnone.
  destruct (run_keeps_other_marks py_repr clock goal1 audience1 niche1 tone1 cta1 w)
    as (w1 & Hrun1 & Hw1 & Hmarks); [done |].
  assert (Hnone1 : ∀ task, task ∈ workflow_ids →
            marked (run_key_of goal2) task (completed_tasks (stored w1)) = false).
  { intros task Htask. rewrite Hmarks; [by apply Hnone | done |].
    by apply workflow_ids_no_colon. }
  destruct (run_system_typed py_repr clock goal2 audience2 niche2 tone2 cta2 w1)
    as (w2 & Hrun2 & _ & entries2 & assets2 & _ & Htasks & Hstatuses & _ & _ & _
        & Hct2 & Hwl2 & _); [done | by rewrite nonempty_strip, Hgoal2 |].
  rewrite (plan_none_marked _ _ Hnone1) in Hstatuses, Hct2.
  change 6 with (length workflow) in Hct2.
  rewrite completed_steps_completed in Hct2.
  by exists w1, w2, entries2.
Qed.

(** ** Steps that wait for the topics *)

(** The steps that need the topics. *)
Definition dependent_ids : list string := ["post_1"; "post_2"; "post_3"; "schedule"].

(** The memory file is a persistent memory in which the topics step is done
    for the run key [rk] and the step [task] is not. *)
Definition waiting (rk task : string) (w : world) : Prop :=
  store_ok w
  ∧ marked rk "topics" (completed_tasks (stored w)) = true
  ∧ marked rk task (completed_tasks (stored w)) = false.

Lemma dependent_ids_no_colon task : task ∈ dependent_ids → no_colon task = true.
Proof.
  unfold dependent_ids. intros H.
  repeat (apply elem_of_cons in H as [-> | H]); try reflexivity.
  by apply elem_of_nil in H.
Qed.

Lemma waiting_run py_repr clock rk goal audience niche tone cta task w :
  task ∈ dependent_ids →
  waiting rk task w →
  waiting rk task (run_system py_repr clock goal audience niche tone cta w).2.
Proof.
  intros Htask (Hw & Htopics & Hwait).
  destruct (decide (rk = run_key_of goal)) as [-> | Hrk].
  - destruct (nonempty (strip goal)) eqn:Hgoal.
    + destruct (run_system_typed py_repr clock goal audience niche tone cta w)
        as (w' & Hrun & Hw' & entries & assets & _ & _ & _ & _ & _ & _ & Hct & _);
        [done | done |].
      rewrite Hrun. cbn [snd]. split; [done |].
      rewrite (proj2 (plan_without_topics _ _ Htopics)) in Hct. rewrite Hct.
      destruct (marked (run_key_of goal) "hashtags" (completed_tasks (stored w))).
      * by rewrite app_nil_r.
      * cbn [fmap list_fmap]. unfold key_of, id.
        rewrite (marked_app_other _ "topics" "hashtags") by done.
        rewrite (marked_app_other _ task "hashtags"); [done |].
        intros <-. unfold dependent_ids in Htask.
        repeat (apply elem_of_cons in Htask as [[=] | Htask]).
        by apply elem_of_nil in Htask.
    + destruct (run_system_blank py_repr clock goal audience niche tone cta w)
        as (w' & e & Hrun & Hw' & _ & _ & _ & Hct & _); [done | done |].
      rewrite Hrun. cbn [snd]. split; [done |]. by rewrite Hct.
  - destruct (run_keeps_other_marks py_repr clock goal audience niche tone cta w)
      as (w' & Hrun & Hw' & Hmarks); [done |].
    rewrite Hrun. cbn [snd]. split; [done |].
    rewrite !Hmarks by (done || by apply dependent_ids_no_colon). done.
Qed.

(** X9. A step that needs the topics and is not done, while the topics step
    is done for its run key, is stuck: after any sequence of runs, with any
    goals and arguments, the memory file is still a persistent memory in
    which the topics step is marked done for this run key and the step is
    not.  The topics step is skipped in every run with this run key, so the
    step never gets its topics and is never completed. *)
Theorem waiting_step_never_completes
    (py_repr : value → string) (clock : nat → string)
    (content_goal : string) (task : string) (calls : list call) (w : world) :
  task ∈ dependent_ids →
  waiting (run_key_of content_goal) task w →
  waiting (run_key_of content_goal) task (run_calls py_repr clock calls w).
Proof.
  intros Htask. revert w.
  induction calls as [|c calls IH]; intros w Hw; [done |].
  unfold run_calls. cbn [foldl]. fold (run_calls py_repr clock calls).
  apply IH. by apply waiting_run.
Qed.

(** ** What a run keeps *)

Section Frame.

Variable py_repr : value → string.
Variable clock : nat → string.
(** A property of the world that printing, reading the clock and writing
    the memory file keep. *)
Variable I : world → Prop.
Hypothesis I_stdout : ∀ s w, I w → I (add_stdout s w).
Hypothesis I_tick : ∀ w, I w → I (tick w).
Hypothesis I_fs : ∀ f w, I w → I (set_fs f w).

(** Holds of a command that keeps [I], whether it returns or raises. *)
Definition preserves {A} (c : M A) : Prop := ∀ w, I w → wp c (λ _, I) (λ _, I) w.

Lemma preserves_ret {A} (a : A) : preserves (mret a).
Proof. intros w Hw. by rewrite wp_ret. Qed.

Lemma preserves_bind {A B} (c : M A) (k : A → M B) :
  preserves c → (∀ a, preserves (k a)) → preserves (c ≫= k).
Proof.
  intros Hc Hk w Hw. rewrite wp_bind. eapply wp_mono; [by apply Hc | | done].
  intros a w' Hw'. by apply Hk.
Qed.

Lemma preserves_lift {A} (c : outcome A) : preserves (lift c).
Proof. intros w Hw. rewrite wp_lift. by destruct c. Qed.

Lemma preserves_print s : preserves (print s).
Proof. intros w Hw. rewrite wp_print. by apply I_stdout. Qed.

Lemma preserves_now_iso : preserves (now_iso clock).
Proof. intros w Hw. rewrite wp_now_iso. by apply I_tick. Qed.

Lemma preserves_save_memory m : preserves (save_memory m).
Proof. intros w Hw. rewrite wp_save_memory. by apply I_fs. Qed.

Lemma preserves_path_exists : preserves path_exists.
Proof. by intros w Hw. Qed.

Lemma preserves_json_load : preserves json_load.
Proof. intros w Hw. unfold wp, json_load. by destruct (fs w) as [[]|]. Qed.

Lemma preserves_for_each {A} (body : A → M unit) (l : list A) :
  (∀ a, preserves (body a)) → preserves (for_each body l).
Proof.
  intros Hbody. induction l as [|a l IH]; cbn [for_each].
  - apply preserves_ret.
  - apply preserves_bind; [apply Hbody | intros _; apply IH].
Qed.

Ltac preserves_go :=
  repeat first
    [ apply preserves_ret | apply preserves_lift | apply preserves_print
    | apply preserves_now_iso | apply preserves_save_memory
    | apply preserves_path_exists | apply preserves_json_load
    | apply preserves_for_each; intros ?
    | apply preserves_bind; [| intros ?]
    | case_match ].

Lemma preserves_load_memory : preserves load_memory.
Proof. unfold load_memory. preserves_go. Qed.

Lemma preserves_log_event m e : preserves (log_event m e).
Proof. unfold log_event. preserves_go. Qed.

Lemma preserves_mark_done task m rk : preserves (mark_done task m rk).
Proof. unfold mark_done. preserves_go. Qed.

Lemma preserves_print_memory_report m n : preserves (print_memory_report py_repr m n).
Proof. unfold print_memory_report. preserves_go. Qed.

Lemma preserves_print_deliverables o : preserves (print_deliverables py_repr o).
Proof. unfold print_deliverables. preserves_go. Qed.

Lemma preserves_clarify_step task q m : preserves (clarify_step py_repr clock task q m).
Proof.
  unfold clarify_step. preserves_go.
Qed.

Section Run.

Variables content_goal audience niche tone cta : string.

Lemma preserves_build_args task tool_name m o :
  preserves (build_args py_repr clock content_goal audience niche tone cta
               task tool_name m o).
Proof.
  unfold build_args.
  repeat case_match; try apply preserves_clarify_step; preserves_go.
Qed.

Lemma preserves_complete_step rk task tool_name args m o :
  preserves (complete_step py_repr clock content_goal rk task tool_name args m o).
Proof.
  unfold complete_step.
  apply preserves_bind; [apply preserves_lift | intros result].
  apply preserves_bind; [apply preserves_lift | intros append].
  apply preserves_bind; [apply preserves_now_iso | intros ts].
  apply preserves_bind; [apply preserves_now_iso | intros ts'].
  apply preserves_bind; [apply preserves_log_event | intros m1].
  apply preserves_bind; [apply preserves_mark_done | intros m2].
  apply preserves_ret.
Qed.

Lemma preserves_run_step rk st s :
  preserves (run_step py_repr clock content_goal audience niche tone cta rk st s).
Proof.
  destruct s as [m o]. unfold run_step.
  apply preserves_bind; [apply preserves_lift | intros [|]].
  - apply preserves_bind; [apply preserves_now_iso | intros ts].
    apply preserves_bind; [apply preserves_log_event | intros m1].
    apply preserves_ret.
  - apply preserves_bind; [apply preserves_build_args | intros [m1|args]].
    + apply preserves_ret.
    + apply preserves_complete_step.
Qed.

Lemma preserves_run_steps rk steps s :
  preserves (run_steps py_repr clock content_goal audience niche tone cta rk steps s).
Proof.
  revert s. induction steps as [|st steps IH]; intros s; cbn [run_steps].
  - apply preserves_ret.
  - apply preserves_bind; [apply preserves_run_step | intros s'; apply IH].
Qed.

(** A property of the world that printing keeps, and that holds once the
    status is set to [complete] in a world with [I]. *)
Variable J : world → Prop.
Hypothesis J_stdout : ∀ s w, J w → J (add_stdout s w).
Hypothesis I_complete : ∀ w, I w → J (set_agent_status "complete" w).

(** A run that starts with [I] once the status is set to [working] keeps
    [I] up to the point where it sets the status to [complete], which only
    a run with a non-blank goal that does not raise reaches. *)
Lemma run_system_frame w :
  I (set_agent_status "working" w) →
  wp (run_system py_repr clock content_goal audience niche tone cta)
     (λ _ w', if nonempty (strip content_goal) then J w' else I w') (λ _, I) w.
Proof.
  intros Hw. unfold run_system. rewrite wp_bind, wp_modify, wp_bind.
  eapply wp_mono; [by apply preserves_load_memory | | done].
  intros m w1 Hw1. wp_steps.
  match goal with
  | |- wp _ _ _ ?w0 => assert (Hw0 : I w0) by (by repeat apply I_stdout)
  end.
  destruct (nonempty (strip content_goal)); cbn [negb].
  - rewrite wp_bind. eapply wp_mono; [by apply preserves_run_steps | | done].
    intros [m' o] w2 Hw2. rewrite wp_bind.
    eapply wp_mono; [by apply preserves_print_deliverables | | done].
    intros u3 w3 Hw3. rewrite wp_bind.
    eapply wp_mono; [by apply preserves_print_memory_report | | done].
    intros u4 w4 Hw4. wp_steps. by apply J_stdout, I_complete.
  - rewrite wp_bind. eapply wp_mono; [by apply preserves_now_iso | | done].
    intros ts w2 Hw2. rewrite wp_bind.
    eapply wp_mono; [by apply preserves_log_event | | done].
    intros m' w3 Hw3. rewrite wp_bind.
    eapply wp_mono; [by apply preserves_print | | done].
    intros u4 w4 Hw4. by apply preserves_print_memory_report.
Qed.

End Run.

End Frame.

(** X10. The agent's status after a run, in any world and for any
    arguments: [complete] when the run returns and the goal is not blank,
    [working] when the goal is blank or the run raises.  No run sets it
    back to [idle]. *)
Theorem agent_status_after_run
    (py_repr : value → string) (clock : nat → string)
    (content_goal audience niche tone cta : string) (w : world) :
  agent_status (run_system py_repr clock content_goal audience niche tone cta w).2
  = match (run_system py_repr clock content_goal audience niche tone cta w).1 with
    | Ok _ => if blank content_goal then "working" else "complete"
    | Raise _ => "working"
    end.
Proof.
  pose proof (run_system_frame py_repr clock (λ w', agent_status w' = "working")
                (λ _ _ H, H) (λ _ H, H) (λ _ _ H, H)
                content_goal audience niche tone cta
                (λ w', agent_status w' = "complete")
                (λ _ _ H, H) (λ _ _, eq_refl) w eq_refl) as Hwp.
  unfold wp in Hwp. rewrite nonempty_strip in Hwp.
  destruct (run_system py_repr clock content_goal audience niche tone cta w)
    as [[u|e] w']; cbn [fst snd]; [| done].
  by destruct (blank content_goal).
Qed.

(** ** Runs on a memory file that is not a persistent memory *)

(** X11. When the memory file exists and does not hold a record, a run
    raises at once, whatever its arguments: the exception of [json.load] when
    it cannot read the file, [AttributeError] when the file holds a value
    that is not a record.  Nothing is printed, the file is left as it is, and
    the status stays [working]. *)
Theorem unreadable_memory_aborts
    (py_repr : value → string) (clock : nat → string)
    (content_goal audience niche tone cta : string) (w : world) (c : file_content) :
  fs w = Some c → well_formed c = false →
  ∃ e,
    run_system py_repr clock content_goal audience niche tone cta w
    = (Raise e, set_agent_status "working" w)
    ∧ ∀ v, c = Document v → e = AttributeError.
Proof.
  intros Hfs Hc. destruct w as [f out n st]. cbn [fs] in Hfs. subst f.
  destruct c as [|v]; [by eexists |].
  destruct v; try discriminate; by eexists.
Qed.

Lemma log_event_no_list m e v w :
  m !! "work_log" = Some v → (∀ l, v ≠ VList l) →
  log_event m e w = (Raise AttributeError, w).
Proof.
  intros Hv Hnl. unfold log_event, append_field, field_append.
  cbn [py_getitem]. rewrite Hv.
  destruct v; try reflexivity. by destruct (Hnl l).
Qed.

Lemma should_skip_lookup task m rk ct :
  m !! "completed_tasks" = Some ct →
  should_skip task m rk = py_in (completed_key rk task) ct.
Proof. intros Hct. unfold should_skip. cbn [py_getitem]. by rewrite Hct. Qed.

(** X12. When the memory file holds a record whose [work_log] is not a
    list, every run raises, with [AttributeError] or [TypeError], before it
    writes anything: the file is left as it is, so the next run fails in the
    same way, and the status stays [working]. *)
Theorem broken_work_log_aborts
    (py_repr : value → string) (clock : nat → string)
    (content_goal audience niche tone cta : string) (w : world)
    (d : gmap string value) (v : value) :
  fs w = Some (Document (VDict d)) →
  d !! "work_log" = Some v → (∀ l, v ≠ VList l) →
  ∃ e w',
    run_system py_repr clock content_goal audience niche tone cta w = (Raise e, w')
    ∧ (e = AttributeError ∨ e = TypeError)
    ∧ fs w' = fs w
    ∧ agent_status w' = "working".
Proof.
  intros Hfs Hv Hnl.
  destruct (load_memory_record (set_agent_status "working" w) d)
    as (m & Hload & Habsent & Hkept & _); [by right |].
  assert (Hwl : m !! "work_log" = Some v) by by apply Hkept.
  assert (Hpresent : ∀ k, k ∈ memory_fields → ∃ x, m !! k = Some x).
  { intros k Hk. destruct (d !! k) as [x|] eqn:Hx; [by eauto |].
    exists (VList []). by apply Habsent. }
  destruct (Hpresent _ in_memory_fields_ct) as [ct Hct].
  destruct (Hpresent _ in_memory_fields_cl) as [cl Hcl].
  cut (wp (run_system py_repr clock content_goal audience niche tone cta)
         (λ _ _, False)
         (λ e w', (e = AttributeError ∨ e = TypeError)
                  ∧ fs w' = fs w ∧ agent_status w' = "working") w).
  { unfold wp.
    destruct (run_system py_repr clock content_goal audience niche tone cta w)
      as [[u|e] w']; [done |].
    intros (He & Hfs' & Hst). by exists e, w'. }
  unfold run_system. rewrite wp_bind, wp_modify, wp_bind.
  unfold wp at 1. rewrite Hload. wp_steps.
  destruct (negb (nonempty (strip content_goal))).
  - wp_steps. unfold wp at 1.
    rewrite (log_event_no_list _ _ _ _ Hwl Hnl). by split; [left |].
  - rewrite wp_bind. unfold workflow. cbn [run_steps]. rewrite wp_bind.
    unfold run_step. cbn [id tool]. rewrite wp_bind, wp_lift.
    rewrite (should_skip_lookup _ _ _ _ Hct).
    destruct (py_in (completed_key (run_key_of content_goal) "topics") ct)
      as [[|]|e] eqn:Hin.
    + cbv beta iota. wp_steps. unfold wp at 1.
      rewrite (log_event_no_list _ _ _ _ Hwl Hnl). by split; [left |].
    + cbv beta iota. rewrite wp_bind. unfold build_args. simpl String.eqb. cbv iota.
      rewrite wp_ret. unfold complete_step.
      rewrite wp_bind, wp_lift, call_generate_topics.
      rewrite wp_bind, wp_lift.
      destruct (field_append "content_library" m) as [append|e] eqn:Happ.
      * wp_steps. unfold wp at 1.
        match goal with
        | |- context [log_event (append ?x) _ _] =>
            pose proof (field_append_Ok _ _ _ Happ x) as [_ Hm]%append_field_Ok
        end.
        rewrite (log_event_no_list _ _ v); [by split; [left |] | | done].
        rewrite Hm. by rewrite lookup_insert_ne.
      * unfold field_append in Happ. cbn [py_getitem] in Happ. rewrite Hcl in Happ.
        destruct cl; cbn in Happ; try discriminate; injection Happ as <-;
          by split; [left |].
    + cbv beta iota. destruct ct; cbn in Hin; try discriminate; injection Hin as <-;
        by split; [right |].
Qed.

(** ** The run report *)

(** The number of entries of a log with the status [s]. *)
Definition count_of (s : string) (entries : list value) : nat :=
  length (filter (λ e, status_of e = Some s) entries).

Lemma is_str_status s d :
  is_str s (default VNone (d !! "status"))
  = bool_decide (status_of (VDict d) = Some s).
Proof.
  unfold status_of, str_field. destruct (d !! "status") as [[]|]; try done.
  cbn.
  destruct (String.eqb_spec s0 s); case_bool_decide; congruence.
Qed.

(** On a log of records, the count the report makes for a status is the
    number of entries with this status. *)
Lemma count_status_of s entries :
  Forall is_dict entries → count_status s entries = Ok (count_of s entries).
Proof.
  intros Hes. unfold count_status, count_of.
  assert (mapM_outcome (λ e, st ← py_get e "status" VNone; Ok (is_str s st)) entries
          = Ok ((λ e, bool_decide (status_of e = Some s)) <$> entries)) as ->.
  { induction Hes as [|e entries [d ->] _ IH]; [done |].
    cbn [mapM_outcome py_get]. rewrite IH. cbn. by rewrite is_str_status. }
  cbn. f_equal. clear Hes. induction entries as [|e entries IH]; [done |].
  rewrite fmap_cons, !filter_cons.
  case_bool_decide; repeat case_decide; try done; cbn [length]; by rewrite IH.
Qed.

(** The world after printing the lines [lines]. *)
Definition printed (lines : list string) (w : world) : world :=
  World (fs w) (stdout w ++ lines) (ticks w) (agent_status w).

Lemma printed_nil w : printed [] w = w.
Proof. destruct w. unfold printed. cbn. by rewrite app_nil_r. Qed.

Lemma printed_cons s lines w : printed (s :: lines) w = printed lines (add_stdout s w).
Proof. unfold printed, add_stdout. cbn. by rewrite <- app_assoc. Qed.

Lemma printed_app l1 l2 w : printed (l1 ++ l2) w = printed l2 (printed l1 w).
Proof. unfold printed. cbn. by rewrite app_assoc. Qed.

(** A loop whose body prints one line per item prints the lines in the
    order of the items. *)
Lemma for_each_print {A} (body : A → M unit) (line : A → string) (l : list A) w :
  (∀ a, a ∈ l → ∀ w', body a w' = (Ok (), add_stdout (line a) w')) →
  for_each body l w = (Ok (), printed (line <$> l) w).
Proof.
  revert w. induction l as [|a l IH]; intros w Hbody; cbn [for_each].
  - by rewrite printed_nil.
  - unfold mbind, M_bind. rewrite Hbody by set_solver.
    rewrite IH; [by rewrite fmap_cons, printed_cons |].
    intros a' Ha'. apply Hbody. set_solver.
Qed.

(** A field of a log entry as the report shows it. *)
Definition field_text (py_repr : value → string) (k : string) (dflt : value)
    (entry : value) : string :=
  match entry with
  | VDict d => str_of py_repr (default dflt (d !! k))
  | _ => ""
  end.

(** The line of the report for a log entry. *)
Definition report_line (py_repr : value → string) (entry : value) : string :=
  field_text py_repr "timestamp" VNone entry +:+ " | "
  +:+ field_text py_repr "status" VNone entry +:+ " | "
  +:+ field_text py_repr "task" VNone entry +:+ " | "
  +:+ field_text py_repr "tool" (VStr "") entry.

(** X13. On a memory whose work log is a list of records, the report
    returns and only prints: the file, the clock and the status are as
    before.  It prints the number of entries of the whole log and, for each of
    the three statuses, the number of entries with it; then, under a heading
    that says [Last 10 actions] whatever [last_n] is, one line for each of the
    last [last_n] entries, in the order of the log, or for every entry when
    [last_n] is 0. *)
Theorem report_of_log
    (py_repr : value → string) (m : gmap string value) (last_n : nat) (w : world)
    (entries : list value) :
  m !! "work_log" = Some (VList entries) → Forall is_dict entries →
  print_memory_report py_repr m last_n w
  = (Ok (),
     printed
       ([ nl +:+ "RUN REPORT"; repeat_string "=" 50;
          "Total log entries: " +:+ str_of_nat py_repr (length entries);
          "Completed: " +:+ str_of_nat py_repr (count_of "completed" entries)
            +:+ " | Clarify: " +:+ str_of_nat py_repr (count_of "clarify" entries)
            +:+ " | Skipped: " +:+ str_of_nat py_repr (count_of "skipped" entries);
          nl +:+ "Last 10 actions:"; repeat_string "-" 50 ]
        ++ (report_line py_repr <$> last_items last_n entries)
        ++ [ repeat_string "-" 50 ]) w)
  ∧ length (last_items last_n entries)
    = match last_n with
      | O => length entries
      | _ => last_n `min` length entries
      end.
Proof.
  intros Hwl Hes. split.
  - cut (wp (print_memory_report py_repr m last_n)
           (λ _ w',
              w' = printed
                     ([ nl +:+ "RUN REPORT"; repeat_string "=" 50;
                        "Total log entries: " +:+ str_of_nat py_repr (length entries);
                        "Completed: "
                          +:+ str_of_nat py_repr (count_of "completed" entries)
                          +:+ " | Clarify: "
                          +:+ str_of_nat py_repr (count_of "clarify" entries)
                          +:+ " | Skipped: "
                          +:+ str_of_nat py_repr (count_of "skipped" entries);
                        nl +:+ "Last 10 actions:"; repeat_string "-" 50 ]
                      ++ (report_line py_repr <$> last_items last_n entries)
                      ++ [ repeat_string "-" 50 ]) w)
           no_exception w).
    { by intros ([] & w' & -> & ->)%wp_returns. }
    unfold print_memory_report. wp_steps. cbn [py_getitem]. rewrite Hwl.
    wp_steps. cbn [py_len py_iter]. wp_steps.
    rewrite !count_status_of by done. wp_steps. cbn [py_last]. wp_steps.
    unfold wp at 1.
    rewrite (for_each_print _ (report_line py_repr)).
    + rewrite wp_print. rewrite printed_app, !printed_cons, printed_nil.
      rewrite printed_app, !printed_cons, printed_nil. reflexivity.
    + intros entry Hentry w'.
      assert (is_dict entry) as [d ->].
      { rewrite Forall_forall in Hes. apply Hes. unfold last_items in Hentry.
        destruct last_n; [done |]. by eapply subseteq_drop. }
      reflexivity.
  - unfold last_items. destruct last_n as [|n]; [done |].
    rewrite length_drop. lia.
Qed.

(** ** The entries a run logs *)

(** A log entry as the runs write them: a record with one of the three
    statuses, for a step of the workflow or for the goal guardrail. *)
Definition run_entry (e : value) : Prop :=
  is_dict e
  ∧ (∃ k, status_of e = Some (status_name k))
  ∧ ∃ task, task_of e = Some task ∧ task ∈ "clarify_goal" :: workflow_ids.

Lemma fmap_eq_elem {A B C} (f : A → C) (g : B → C) (l : list A) (l' : list B) x :
  f <$> l = g <$> l' → x ∈ l → ∃ y, y ∈ l' ∧ f x = g y.
Proof.
  intros Heq Hx. apply (list_elem_of_fmap_2 f) in Hx. rewrite Heq in Hx.
  apply list_elem_of_fmap in Hx as (y & Hy & Hin). by exists y.
Qed.

Lemma run_system_entries py_repr clock goal audience niche tone cta w :
  store_ok w → Forall run_entry (work_log (stored w)) →
  ∃ w', run_system py_repr clock goal audience niche tone cta w = (Ok (), w')
    ∧ store_ok w' ∧ Forall run_entry (work_log (stored w')).
Proof.
  intros Hw Hlog. destruct (nonempty (strip goal)) eqn:Hgoal.
  - destruct (run_system_typed py_repr clock goal audience niche tone cta w)
      as (w' & Hrun & Hw' & entries & assets & Hes & Htasks & Hstatuses & _ & _
          & _ & _ & Hwl & _); [done | done |].
    exists w'. split; [done |]. split; [done |]. rewrite Hwl.
    apply Forall_app. split; [done |]. apply Forall_forall. intros e He.
    split; [by eapply Forall_forall in Hes |]. split.
    + destruct (fmap_eq_elem _ _ _ _ _ Hstatuses He) as (k & _ & Hk). by exists k.
    + destruct (fmap_eq_elem _ _ _ _ _ Htasks He) as (st & Hst & Hk).
      exists (id st). split; [done |]. apply elem_of_cons. right.
      change workflow_ids with (id <$> workflow). by apply list_elem_of_fmap_2.
  - destruct (run_system_blank py_repr clock goal audience niche tone cta w)
      as (w' & e & Hrun & Hw' & Htask & Hstatus & Hwl & _); [done | done |].
    exists w'. split; [done |]. split; [done |]. rewrite Hwl.
    apply Forall_app. split; [done |]. constructor; [| done].
    split.
    + destruct Hw' as (_ & _ & Hdicts). rewrite Hwl in Hdicts.
      apply Forall_app in Hdicts as [_ Hdicts]. by inversion Hdicts.
    + split; [by exists Clarified |]. exists "clarify_goal". split; [done |].
      by apply elem_of_cons; left.
Qed.

Lemma count_of_statuses (entries : list value) :
  Forall (λ e, ∃ k, status_of e = Some (status_name k)) entries →
  (count_of "completed" entries + count_of "clarify" entries
   + count_of "skipped" entries = length entries)%nat.
Proof.
  unfold count_of. induction 1 as [|e entries [k Hk] _ IH]; [done |].
  rewrite !filter_cons, Hk. cbn [length].
  destruct k; repeat case_decide; try done; cbn [length]; lia.
Qed.

(** X14. Every entry the runs log is a record with the status [completed],
    [clarify] or [skipped], for a step of the workflow or for the goal
    guardrail.  So, starting from a persistent memory whose log has only such
    entries (no memory file, for one), after any sequence of runs the file
    still holds such a memory, and the three counts of the report add up to
    the number of entries of the log. *)
Theorem log_entries_have_known_status
    (py_repr : value → string) (clock : nat → string)
    (calls : list call) (w : world) :
  store_ok w → Forall run_entry (work_log (stored w)) →
  store_ok (run_calls py_repr clock calls w)
  ∧ Forall run_entry (work_log (stored (run_calls py_repr clock calls w)))
  ∧ ∃ completed clarify skipped,
      count_status "completed" (work_log (stored (run_calls py_repr clock calls w)))
      = Ok completed
      ∧ count_status "clarify" (work_log (stored (run_calls py_repr clock calls w)))
        = Ok clarify
      ∧ count_status "skipped" (work_log (stored (run_calls py_repr clock calls w)))
        = Ok skipped
      ∧ (completed + clarify + skipped
         = length (work_log (stored (run_calls py_repr clock calls w))))%nat.
Proof.
  revert w. induction calls as [|c calls IH]; intros w Hw Hlog.
  - change (run_calls py_repr clock [] w) with w.
    split; [done |]. split; [done |].
    assert (Hdicts : Forall is_dict (work_log (stored w))) by apply Hw.
    eexists _, _, _. rewrite !count_status_of by done.
    split; [reflexivity |]. split; [reflexivity |]. split; [reflexivity |].
    apply count_of_statuses. eapply Forall_impl; [exact Hlog |].
    by intros e (_ & Hk & _).
  - unfold run_calls. cbn [foldl]. fold (run_calls py_repr clock calls).
    destruct (run_system_entries py_repr clock (call_goal c) (call_audience c)
                (call_niche c) (call_tone c) (call_cta c) w Hw Hlog)
      as (w' & Hrun & Hw' & Hlog').
    rewrite Hrun. cbn [snd]. by apply IH.
Qed.

(** ** The further properties at concrete inputs *)

(** A memory with the three fields and one more key. *)
Definition sample_memory : gmap string value :=
  {[ "completed_tasks" := VList [VStr "run:a:topics"];
     "work_log" := VList [];
     "content_library" := VList [];
     "owner" := VStr "Alpha" ]}.

Lemma save_load_round_trip_witness :
  load_memory (save_memory sample_memory fresh).2
  = (Ok sample_memory, (save_memory sample_memory fresh).2).
Proof.
  apply (save_load_round_trip sample_memory fresh).
  intros k Hk. unfold memory_fields in Hk.
  repeat (apply elem_of_cons in Hk as [-> | Hk]);
    [by eexists | by eexists | by eexists | by apply elem_of_nil in Hk].
Defined.

Lemma workflow_keys_are_distinct_witness :
  key_of "run:a:topics" (Step "post_1" "draft_post")
  ≠ key_of "run:a" (Step "topics" "generate_topics").
Proof.
  apply (workflow_keys_are_distinct "run:a:topics" "run:a"
           (Step "post_1" "draft_post") (Step "topics" "generate_topics")).
  - apply elem_of_cons. right. apply elem_of_cons. by left.
  - apply elem_of_cons. by left.
  - left. discriminate.
Defined.

Lemma unmarked_run_completes_all_witness :
  ∃ w' assets,
    run_system (λ _, "") (λ _, "") "Grow my newsletter" "founders" "AI" "warm" "Reply"
      (keys_only ["run:other goal:topics"]) = (Ok (), w')
    ∧ content_library (stored w') = assets
    ∧ asset_type_of <$> assets = Some <$> workflow_ids.
Proof.
  assert (Hblank : blank "Grow my newsletter" = false) by (vm_compute; reflexivity).
  assert (Hnone : ∀ task, task ∈ workflow_ids →
            marked (run_key_of "Grow my newsletter") task
              (completed_tasks (stored (keys_only ["run:other goal:topics"]))) = false).
  { intros task Htask. unfold workflow_ids in Htask.
    repeat (apply elem_of_cons in Htask as [-> | Htask]);
      [vm_compute; reflexivity.. | by apply elem_of_nil in Htask]. }
  destruct (unmarked_run_completes_all (λ _, "") (λ _, "") "Grow my newsletter"
              "founders" "AI" "warm" "Reply" (keys_only ["run:other goal:topics"])
              (store_ok_keys_only _) Hblank Hnone)
    as (w' & entries & assets & topics & t0 & t1 & t2 & tags & schedule & Hrun & _
        & _ & _ & _ & Hcl & Htypes & _).
  exists w', assets. split; [exact Hrun |]. split; [exact Hcl | exact Htypes].
Defined.

Lemma other_goal_runs_in_full_witness :
  ∃ w1 w2 entries,
    run_system (λ _, "") (λ _, "") "Grow my newsletter" "" "" "" "" fresh = (Ok (), w1)
    ∧ run_system (λ _, "") (λ _, "") "Grow my podcast" "" "" "" "" w1 = (Ok (), w2)
    ∧ work_log (stored w2) = work_log (stored w1) ++ entries
    ∧ status_of <$> entries = replicate 6 (Some "completed").
Proof.
  assert (Hblank : blank "Grow my podcast" = false) by (vm_compute; reflexivity).
  assert (Hkeys : run_key_of "Grow my newsletter" ≠ run_key_of "Grow my podcast").
  { intros Heq. vm_compute in Heq. discriminate Heq. }
  assert (Hnone : ∀ task, task ∈ workflow_ids →
            marked (run_key_of "Grow my podcast") task
              (completed_tasks (stored fresh)) = false).
  { intros task _. reflexivity. }
  destruct (other_goal_runs_in_full (λ _, "") (λ _, "") "Grow my newsletter"
              "" "" "" "" "Grow my podcast" "" "" "" "" fresh
              (store_ok_fresh [] 0 "idle") Hblank Hkeys Hnone)
    as (w1 & w2 & entries & Hrun1 & Hrun2 & Hwl & _ & Hstatuses & _).
  exists w1, w2, entries.
  split; [exact Hrun1 |]. split; [exact Hrun2 |]. split; [exact Hwl | exact Hstatuses].
Defined.

Lemma waiting_step_never_completes_witness :
  marked (run_key_of "Grow my newsletter") "post_1"
    (completed_tasks (stored
       (run_calls (λ _, "") (λ _, "")
          [ Call_run "Grow my newsletter" "" "" "" "";
            Call_run "Grow my podcast" "" "" "" "";
            Call_run "GROW MY NEWSLETTER " "" "" "" "" ]
          (keys_only ["run:grow my newsletter:topics"])))) = false.
Proof.
  assert (Htask : "post_1" ∈ dependent_ids) by (apply elem_of_cons; by left).
  assert (Hwaiting : waiting (run_key_of "Grow my newsletter") "post_1"
                       (keys_only ["run:grow my newsletter:topics"])).
  { split; [apply store_ok_keys_only |]. split; vm_compute; reflexivity. }
  exact (proj2 (proj2
    (waiting_step_never_completes (λ _, "") (λ _, "") "Grow my newsletter" "post_1"
       [ Call_run "Grow my newsletter" "" "" "" "";
         Call_run "Grow my podcast" "" "" "" "";
         Call_run "GROW MY NEWSLETTER " "" "" "" "" ]
       (keys_only ["run:grow my newsletter:topics"]) Htask Hwaiting))).
Defined.

Lemma unreadable_memory_aborts_witness :
  ∃ e,
    run_system (λ _, "") (λ _, "") "Grow my newsletter" "" "" "" ""
      (World (Some (Document (VList []))) [] 0 "idle")
    = (Raise e, World (Some (Document (VList []))) [] 0 "working")
    ∧ e = AttributeError.
Proof.
  destruct (unreadable_memory_aborts (λ _, "") (λ _, "") "Grow my newsletter"
              "" "" "" "" (World (Some (Document (VList []))) [] 0 "idle")
              (Document (VList [])) eq_refl eq_refl) as (e & Hrun & He).
  exists e. split; [exact Hrun | exact (He _ eq_refl)].
Defined.

Lemma broken_work_log_aborts_witness :
  ∃ e w',
    run_system (λ _, "") (λ _, "") "Grow my newsletter" "" "" "" ""
      (World (Some (Document (VDict {[ "work_log" := VStr "lost" ]}))) [] 0 "idle")
    = (Raise e, w')
    ∧ fs w' = Some (Document (VDict {[ "work_log" := VStr "lost" ]})).
Proof.
  assert (Hnl : ∀ l, VStr "lost" ≠ VList l) by (intros l; discriminate).
  assert (Hwl : ({[ "work_log" := VStr "lost" ]} : gmap string value) !! "work_log"
                = Some (VStr "lost")) by (vm_compute; reflexivity).
  destruct (broken_work_log_aborts (λ _, "") (λ _, "") "Grow my newsletter" "" "" "" ""
              (World (Some (Document (VDict {[ "work_log" := VStr "lost" ]}))) [] 0 "idle")
              {[ "work_log" := VStr "lost" ]} (VStr "lost") eq_refl Hwl Hnl)
    as (e & w' & Hrun & _ & Hfs & _).
  exists e, w'. split; [exact Hrun | exact Hfs].
Defined.

(** A log of three entries. *)
Definition sample_log : list value :=
  [ VDict {[ "task" := VStr "topics"; "status" := VStr "completed" ]};
    VDict {[ "task" := VStr "post_1"; "status" := VStr "clarify" ]};
    VDict {[ "task" := VStr "hashtags"; "status" := VStr "skipped" ]} ].

Lemma report_of_log_witness :
  length (last_items 2 sample_log) = 2%nat
  ∧ length (last_items 0 sample_log) = 3%nat.
Proof.
  assert (Hdicts : Forall is_dict sample_log).
  { unfold sample_log. repeat (constructor; [by eexists |]). constructor. }
  assert (Hwl : ({[ "work_log" := VList sample_log ]} : gmap string value)
                   !! "work_log" = Some (VList sample_log))
    by apply lookup_singleton_eq.
  split.
  - exact (proj2 (report_of_log (λ _, "") {[ "work_log" := VList sample_log ]} 2
                    fresh sample_log Hwl Hdicts)).
  - exact (proj2 (report_of_log (λ _, "") {[ "work_log" := VList sample_log ]} 0
                    fresh sample_log Hwl Hdicts)).
Defined.

Lemma log_entries_have_known_status_witness :
  Forall run_entry
    (work_log (stored
       (run_calls (λ _, "") (λ _, "")
          [ Call_run "Grow my newsletter" "" "" "" "";
            Call_run "   " "" "" "" "";
            Call_run "Grow my newsletter" "" "" "" "" ] fresh))).
Proof.
  exact (proj1 (proj2
    (log_entries_have_known_status (λ _, "") (λ _, "")
       [ Call_run "Grow my newsletter" "" "" "" "";
         Call_run "   " "" "" "" "";
         Call_run "Grow my newsletter" "" "" "" "" ] fresh
       (store_ok_fresh [] 0 "idle") (Forall_nil_2 _)))).
Defined.
